(** * The DISCO operation monitor (cinder/volume/drivers/disco/disco.py)

    A shallow embedding of class [DISCOCheck]: its polling callback
    [_retry_get_detail], the dispatch [_call_api], the status extraction
    [_get_item_status], the clock test [is_timeout] and the entry point
    [_monitor_request], together with the few pieces of Python and of
    oslo_service.loopingcall they rest on; and of class [DiscoDriver]: the
    volume and snapshot operations that call the monitor, the set-up
    check, the volume statistics and the image copies. *)

From Stdlib Require Import ZArith String Ascii Lia.
From stdpp Require Import base gmap strings pretty.

#[local] Open Scope Z_scope.
#[local] Open Scope string_scope.
#[local] Set Warnings "-register-all".

(** ** Python values and exceptions *)

Module Py.

(** The values that travel through the monitor: replies of the SOAP/REST
    client, their fields, the parameter dictionary and exception payloads.
    Objects subscripted by name (dict, suds reply) are finite maps from
    field names.  Floats are left out of the model. *)
Inductive pyval : Type :=
| PNone
| PBool (b : bool)
| PInt (z : Z)
| PStr (s : string)
| PTuple (items : list pyval)
| PDict (fields : gmap string pyval).

Inductive exn : Type :=
| VolumeBackendAPIException (data : pyval)
| LoopingCallDone (retvalue : pyval)
| TypeError
| KeyError (key : string)
| ValueError.

(** The outcome of evaluating an expression: a value or a raised exception. *)
Inductive res (A : Type) : Type :=
| Ok (a : A)
| Raise (e : exn).
Arguments Ok {A} a.
Arguments Raise {A} e.

#[global] Instance res_ret : MRet res := fun A a => Ok a.
#[global] Instance res_bind : MBind res := fun A B f m =>
  match m with
  | Ok a => f a
  | Raise e => Raise e
  end.

(** [bool(v)], the test made by [if v:]. *)
Definition truthy (v : pyval) : bool :=
  match v with
  | PNone => false
  | PBool b => b
  | PInt z => negb (Z.eqb z 0)
  | PStr s => negb (String.eqb s "")
  | PTuple items => negb (Nat.eqb (length items) 0)
  | PDict fields => negb (Nat.eqb (size fields) 0)
  end.

(** [v[k]] for a string key [k]. *)
Definition getitem (v : pyval) (k : string) : res pyval :=
  match v with
  | PDict fields =>
      match fields !! k with
      | Some x => Ok x
      | None => Raise (KeyError k)
      end
  | _ => Raise TypeError
  end.

(** [v == n] for an integer literal [n]: booleans are the integers 0 and 1,
    every other kind of value differs from an integer. *)
Definition eq_int (v : pyval) (n : Z) : bool :=
  match v with
  | PInt z => Z.eqb z n
  | PBool b => Z.eqb (if b then 1 else 0) n
  | _ => false
  end.

(** What the interpreter and [six] supply: [six.text_type] and the reading
    of a string by [int]. *)
Record runtime : Type := {
  text_type : pyval -> string;
  int_of_str : string -> option Z
}.

(** [int(v)]. *)
Definition int (rt : runtime) (v : pyval) : res Z :=
  match v with
  | PInt z => Ok z
  | PBool b => Ok (if b then 1 else 0)
  | PStr s =>
      match int_of_str rt s with
      | Some z => Ok z
      | None => Raise ValueError
      end
  | _ => Raise TypeError
  end.

End Py.
Import Py.

(** ** The world outside the driver *)

(** The three status queries [self.client] offers, with their arguments. *)
Inductive request : Type :=
| snapshotDetail (snapshot_id : pyval)
| restoreDetail (restore_id : pyval)
| cloneDetail (clone_id vol_name : pyval).

(** [client n rq] is what the call [rq] yields when [n] calls were made
    before it; [time_time n] is [int(time.time())] as read once [n] calls
    have been made. *)
Record world : Type := {
  client : nat -> request -> res pyval;
  time_time : nat -> Z
}.

(** Code runs against the log of the client calls made so far, latest
    first, and may raise. *)
Definition M (A : Type) : Type := list request -> res A * list request.

#[global] Instance M_ret : MRet M := fun A a calls => (Ok a, calls).
#[global] Instance M_bind : MBind M := fun A B f m calls =>
  match m calls with
  | (Ok a, calls') => f a calls'
  | (Raise e, calls') => (Raise e, calls')
  end.

Definition raise {A : Type} (e : exn) : M A := fun calls => (Raise e, calls).

Definition lift {A : Type} (r : res A) : M A := fun calls => (r, calls).

Definition call (w : world) (rq : request) : M pyval :=
  fun calls => (client w (length calls) rq, rq :: calls).

Definition now (w : world) : M Z :=
  fun calls => (Ok (time_time w (length calls)), calls).

(** ** oslo_service.loopingcall *)

Module loopingcall.

(** Where a timer stands: still running, or finished with the value or
    the exception that [wait()] hands over. *)
Inductive progress : Type :=
| Polling (calls : list request)
| Done (r : res pyval) (calls : list request).

(** [FixedIntervalLoopingCall(f, ...).start(interval).wait()], followed for
    at most [n] runs of [f].  The first run is immediate; a run that returns
    is followed by a sleep and another run; [LoopingCallDone] ends the timer
    with its [retvalue]; any other exception ends it and is raised again by
    [wait()]. *)
Fixpoint wait (n : nat) (f : M unit) (calls : list request) : progress :=
  match n with
  | O => Polling calls
  | S k =>
      match f calls with
      | (Ok _, calls') => wait k f calls'
      | (Raise (LoopingCallDone retvalue), calls') => Done (Ok retvalue) calls'
      | (Raise e, calls') => Done (Raise e) calls'
      end
  end.

End loopingcall.

(** ** class DISCOCheck *)

Definition DISCO_CODE_MAPPING : gmap string Z :=
  {[ "request.success" := 1; "request.ongoing" := 2; "request.failure" := 3 ]}.

(** [DISCO_CODE_MAPPING[key]] *)
Definition code (key : string) : res Z :=
  match DISCO_CODE_MAPPING !! key with
  | Some z => Ok z
  | None => Raise (KeyError key)
  end.

Record DISCOCheck : Type := {
  start_time : Z;
  function : string;
  param : pyval
}.

Section Monitor.

Variable rt : runtime.
Variable w : world.

(** [_("Error while getting %(op)s details, returned code: %(status)s.") %
    {'op': operation, 'status': six.text_type(status)}] *)
Definition details_msg (operation : string) (status : pyval) : string :=
  "Error while getting " +:+ operation +:+ " details, returned code: "
    +:+ text_type rt status +:+ ".".

(** [_("Timeout while calling %s ") % operation] *)
Definition timeout_msg (operation : string) : string :=
  "Timeout while calling " +:+ operation +:+ " ".

(** [(_("Unknown operation %s."), operation)]: a pair, the format is not
    applied. *)
Definition unknown_msg (operation : string) : pyval :=
  PTuple [PStr "Unknown operation %s."; PStr operation].

Definition is_timeout (start_time timeout : Z) : M bool :=
  current_time ← now w;
  mret (Z.gtb (current_time - start_time) timeout).

Definition _call_api (operation : string) (params : pyval) : M pyval :=
  if String.eqb operation "snapshot_detail" then
    snapshot_id ← lift (getitem params "snapshot_id");
    call w (snapshotDetail snapshot_id)
  else if String.eqb operation "restore_detail" then
    restore_id ← lift (getitem params "restore_id");
    call w (restoreDetail restore_id)
  else if String.eqb operation "clone_detail" then
    clone_id ← lift (getitem params "clone_id");
    vol_name ← lift (getitem params "vol_name");
    call w (cloneDetail clone_id vol_name)
  else
    raise (VolumeBackendAPIException (unknown_msg operation)).

Definition _get_item_status (operation : string) (reply : pyval) : res pyval :=
  match reply with
  | PNone =>
      Raise (VolumeBackendAPIException (PStr "Call returned a None object"))
  | _ =>
      if String.eqb operation "snapshot_detail" then
        info ← getitem reply "snapshotInfoResult";
        getitem info "status"
      else if String.eqb operation "restore_detail" then
        info ← getitem reply "restoreInfoResult";
        getitem info "status"
      else if String.eqb operation "clone_detail" then
        result ← getitem reply "result";
        z ← int rt result;
        mret (PInt z)
      else
        Raise (VolumeBackendAPIException (unknown_msg operation))
  end.

Definition _retry_get_detail (start_time timeout : Z) (operation : string)
    (params : pyval) : M unit :=
  reply ← _call_api operation params;
  status ← lift (getitem reply "status");
  let msg := details_msg operation status in
  if truthy status then
    raise (VolumeBackendAPIException (PStr msg))
  else
    item_status ← lift (_get_item_status operation reply);
    failure ← lift (code "request.failure");
    if eq_int item_status failure then
      raise (VolumeBackendAPIException (PStr msg))
    else
      success ← lift (code "request.success");
      if eq_int item_status success then
        raise (LoopingCallDone reply)
      else
        late ← is_timeout start_time timeout;
        if late : bool then
          raise (VolumeBackendAPIException (PStr (timeout_msg operation)))
        else
          mret tt.

(** The timer [_monitor_request] starts, followed for [n] runs. *)
Definition timer (self : DISCOCheck) (timeout : Z) (n : nat)
    : list request -> loopingcall.progress :=
  loopingcall.wait n
    (_retry_get_detail (start_time self) timeout (function self) (param self)).

(** [timer.start(interval=CONF.retry_interval).wait()] is a statement: what
    [wait()] hands over is dropped and the method returns [None]. *)
Definition _monitor_request (self : DISCOCheck) (timeout : Z) (n : nat)
    (calls : list request) : loopingcall.progress :=
  match timer self timeout n calls with
  | loopingcall.Done (Ok _) calls' => loopingcall.Done (Ok PNone) calls'
  | p => p
  end.

End Monitor.

(** ** Vocabulary of the specification *)

(** The operation kinds the monitor knows, by the names [DISCOCheck] is
    built with. *)
Definition kinds : list string :=
  ["snapshot_detail"; "restore_detail"; "clone_detail"].

Section Vocabulary.

Variable rt : runtime.
Variable w : world.

(** The reply was accepted by the transport: it has a [status] field and
    [if status:] does not fire. *)
Definition accepted (reply : pyval) : bool :=
  match getitem reply "status" with
  | Ok status => negb (truthy status)
  | Raise _ => false
  end.

(** The reply is accepted and its item status, extracted for [operation],
    compares equal to [c]. *)
Definition reads (operation : string) (reply : pyval) (c : Z) : bool :=
  accepted reply &&
  match _get_item_status rt operation reply with
  | Ok item_status => eq_int item_status c
  | Raise _ => false
  end.

(** The status query issued when [k] calls were made before it is answered
    by [reply]. *)
Definition answered (operation : string) (params : pyval) (k : nat)
    (reply : pyval) : Prop :=
  forall calls, length calls = k ->
    exists rq, _call_api w operation params calls = (Ok reply, rq :: calls).

(** The errors of the specification, as the exceptions the code raises. *)
Definition OperationQueryFailed (operation : string) (status : pyval) : exn :=
  VolumeBackendAPIException (PStr (details_msg rt operation status)).

Definition OperationFailed (operation : string) (status : pyval) : exn :=
  VolumeBackendAPIException (PStr (details_msg rt operation status)).

Definition OperationTimedOut (operation : string) : exn :=
  VolumeBackendAPIException (PStr (timeout_msg operation)).

Definition UnsupportedOperationKind (operation : string) : exn :=
  VolumeBackendAPIException (unknown_msg operation).

Definition InvalidReply : exn :=
  VolumeBackendAPIException (PStr "Call returned a None object").

End Vocabulary.

(** ** More of Python *)

Fixpoint repeat_str (n : nat) (s : string) : string :=
  match n with
  | O => ""
  | S k => s +:+ repeat_str k s
  end.

(** [v * k] for an integer [k]: a product for numbers, a repetition for
    text and sequences. *)
Definition mul (v : pyval) (k : Z) : res pyval :=
  match v with
  | PInt z => Ok (PInt (z * k))
  | PBool b => Ok (PInt ((if b then 1 else 0) * k))
  | PStr s => Ok (PStr (repeat_str (Z.to_nat k) s))
  | PTuple items => Ok (PTuple (concat (replicate (Z.to_nat k) items)))
  | PNone | PDict _ => Raise TypeError
  end.

(** [''.join((prefix, v))] for a text [prefix]. *)
Definition join (prefix : string) (v : pyval) : res string :=
  match v with
  | PStr s => Ok (prefix +:+ s)
  | _ => Raise TypeError
  end.

(** [v[k] = x], giving the object as the assignment leaves it. *)
Definition setitem (v : pyval) (k : string) (x : pyval) : res pyval :=
  match v with
  | PDict fields => Ok (PDict (<[k := x]> fields))
  | _ => Raise TypeError
  end.

(** [oslo_utils.units.Ki] *)
Definition Ki : Z := 1024.

(** ** class DiscoDriver *)

(** The calls the driver makes on [self.client]; [detail] holds the status
    queries of the monitor. *)
Inductive api_call : Type :=
| volumeCreate (vol_name vol_size : pyval)
| volumeDelete (vol_id : pyval)
| snapshotCreate (vol_id arg2 arg3 description : pyval)
| snapshotDelete (snap_id : pyval)
| restoreFromSnapshot (snap_id vol_name arg3 arg4 arg5 : pyval)
| volumeClone (src_vol_id vol_name : pyval)
| volumeDetailByName (vol_name : pyval)
| volumeExtend (vol_id new_size_mb : pyval)
| systemInformationList
| detail (rq : request).

(** [answer n c] is what the call [c] yields when [n] calls were made before
    it, [clock n] is [int(time.time())] once [n] calls have been made, and
    [volume_get] is [cinder.db.sqlalchemy.api.volume_get] under the admin
    context. *)
Record backend : Type := {
  answer : nat -> api_call -> res pyval;
  clock : nat -> Z;
  volume_get : pyval -> res pyval
}.

(** The options of [disco_opts] the methods below read. *)
Record configuration : Type := {
  volume_name_prefix : string;
  snapshot_check_timeout : Z;
  restore_check_timeout : Z;
  clone_check_timeout : Z
}.

(** How a method stands: it has returned, it has raised, or its monitor is
    still polling; each with the log of the calls made, latest first. *)
Inductive outcome (A : Type) : Type :=
| Returns (a : A) (log : list api_call)
| Raises (e : exn) (log : list api_call)
| Waiting (log : list api_call).
Arguments Returns {A} a log.
Arguments Raises {A} e log.
Arguments Waiting {A} log.

Definition D (A : Type) : Type := list api_call -> outcome A.

#[global] Instance D_ret : MRet D := fun A a log => Returns a log.
#[global] Instance D_bind : MBind D := fun A B f m log =>
  match m log with
  | Returns a log' => f a log'
  | Raises e log' => Raises e log'
  | Waiting log' => Waiting log'
  end.

Definition throw {A : Type} (e : exn) : D A := fun log => Raises e log.

Definition eval {A : Type} (r : res A) : D A := fun log =>
  match r with
  | Ok a => Returns a log
  | Raise e => Raises e log
  end.

Definition send (b : backend) (c : api_call) : D pyval := fun log =>
  match answer b (length log) c with
  | Ok reply => Returns reply (c :: log)
  | Raise e => Raises e (c :: log)
  end.

Definition time (b : backend) : D Z := fun log =>
  Returns (clock b (length log)) log.

(** The client and the clock as a monitor that starts after [k] calls
    meets them. *)
Definition monitor_world (b : backend) (k : nat) : world := {|
  client := fun n rq => answer b (k + n) (detail rq);
  time_time := fun n => clock b (k + n)
|}.

(** [check._monitor_request(timeout)], followed for [n] runs of its timer;
    its queries join the log. *)
Definition monitor (rt : runtime) (b : backend) (n : nat) (check : DISCOCheck)
    (timeout : Z) : D pyval := fun log =>
  match _monitor_request rt (monitor_world b (length log)) check timeout n []
  with
  | loopingcall.Polling calls => Waiting (map detail calls ++ log)
  | loopingcall.Done (Ok v) calls => Returns v (map detail calls ++ log)
  | loopingcall.Done (Raise e) calls => Raises e (map detail calls ++ log)
  end.

Section Driver.

Variable rt : runtime.
Variable cfg : configuration.
Variable b : backend.

(** [_(fmt) % {'stat': six.text_type(status), 'res': result}] for a format
    [before %(stat)s between %(res)s after]. *)
Definition status_result_msg (before between after : string)
    (status result : pyval) : string :=
  before +:+ text_type rt status +:+ between +:+ text_type rt result +:+ after.

(** [(_(fmt), {'stat': six.text_type(status), 'res': result})]: a pair, the
    format is not applied. *)
Definition status_result_pair (fmt : string) (status result : pyval) : pyval :=
  PTuple [PStr fmt;
          PDict {[ "stat" := PStr (text_type rt status); "res" := result ]}].

Definition create_volume (volume : pyval) : D pyval :=
  volume_id ← eval (getitem volume "id");
  vol_name ← eval (join (volume_name_prefix cfg) volume_id);
  size ← eval (getitem volume "size");
  vol_size ← eval (mul size Ki);
  reply ← send b (volumeCreate (PStr vol_name) vol_size);
  status ← eval (getitem reply "status");
  result ← eval (getitem reply "result");
  if truthy status then
    throw (VolumeBackendAPIException (PStr
      (status_result_msg "Error while creating volume [status] "
         " - [result] " "." status result)))
  else
    _ ← eval (getitem volume "name");
    mret (PDict {[ "provider_location" := result ]}).

Definition delete_volume (volume : pyval) : D pyval :=
  disco_vol_id ← eval (getitem volume "provider_location");
  reply ← send b (volumeDelete disco_vol_id);
  status ← eval (getitem reply "status");
  result ← eval (getitem reply "result");
  if truthy status then
    throw (VolumeBackendAPIException (PStr
      (status_result_msg "Error while deleting volume [status] "
         " - [result] " "." status result)))
  else
    _ ← eval (getitem volume "name");
    mret PNone.

(** The second component is the [snapshot] object as the method leaves
    it. *)
Definition create_snapshot (n : nat) (snapshot : pyval)
    (log : list api_call) : outcome pyval * pyval :=
  let monitored : D (pyval * pyval) :=
    volume_id ← eval (getitem snapshot "volume_id");
    volume ← eval (volume_get b volume_id);
    description ← eval (getitem snapshot "display_description");
    vol_id ← eval (getitem volume "provider_location");
    reply ← send b (snapshotCreate vol_id (PInt (-1)) (PInt (-1)) description);
    status ← eval (getitem reply "status");
    result ← eval (getitem reply "result");
    if truthy status then
      throw (VolumeBackendAPIException (PStr
        (status_result_msg "Error while creating snapshot [status] "
           " - [result] " "." status result)))
    else
      snapshot_id ← eval (int rt result);
      let params := PDict {[ "snapshot_id" := PInt snapshot_id ]} in
      start_time ← time b;
      let snapshot_request :=
        {| start_time := start_time; function := "snapshot_detail";
           param := params |} in
      let timeout := snapshot_check_timeout cfg in
      _ ← monitor rt b n snapshot_request timeout;
      mret (result, volume) in
  match monitored log with
  | Returns (result, volume) log' =>
      match setitem snapshot "provider_location" result with
      | Ok snapshot' =>
          match getitem volume "name" with
          | Ok _ =>
              (Returns (PDict {[ "provider_location" := result ]}) log',
               snapshot')
          | Raise e => (Raises e log', snapshot')
          end
      | Raise e => (Raises e log', snapshot)
      end
  | Raises e log' => (Raises e log', snapshot)
  | Waiting log' => (Waiting log', snapshot)
  end.

Definition delete_snapshot (snapshot : pyval) : D pyval :=
  snap_id ← eval (getitem snapshot "provider_location");
  reply ← send b (snapshotDelete snap_id);
  status ← eval (getitem reply "status");
  result ← eval (getitem reply "result");
  if truthy status then
    throw (VolumeBackendAPIException (PStr
      (status_result_msg "Error while deleting snapshot [status] "
         " - [result] " "" status result)))
  else
    mret PNone.

(** [_("Error[%(stat)s - %(res)s] while restoring snapshot [%(snap_id)s]
    into volume [%(vol)s].") % {...}] *)
Definition restore_msg (status result snap_id : pyval) (vol_name : string)
    : string :=
  "Error[" +:+ text_type rt status +:+ " - " +:+ text_type rt result
    +:+ "] while restoring snapshot [" +:+ text_type rt snap_id
    +:+ "] into volume [" +:+ vol_name +:+ "].".

Definition create_volume_from_snapshot (n : nat) (volume snapshot : pyval)
    : D pyval :=
  volume_id ← eval (getitem volume "id");
  snap_id ← eval (getitem snapshot "provider_location");
  vol_name ← eval (join (volume_name_prefix cfg) volume_id);
  reply ← send b (restoreFromSnapshot snap_id (PStr vol_name) (PInt (-1))
                    PNone (PInt (-1)));
  status ← eval (getitem reply "status");
  result ← eval (getitem reply "result");
  if truthy status then
    throw (VolumeBackendAPIException
             (PStr (restore_msg status result snap_id vol_name)))
  else
    restore_id ← eval (int rt result);
    let params := PDict {[ "restore_id" := PInt restore_id ]} in
    start_time ← time b;
    let restore_request :=
      {| start_time := start_time; function := "restore_detail";
         param := params |} in
    let timeout := restore_check_timeout cfg in
    _ ← monitor rt b n restore_request timeout;
    reply ← send b (volumeDetailByName (PStr vol_name));
    status ← eval (getitem reply "status");
    info ← eval (getitem reply "volumeInfoResult");
    new_vol_id ← eval (getitem info "volumeId");
    if truthy status then
      throw (VolumeBackendAPIException (PStr
        (status_result_msg "Error[status] " " - [result] "
           "] while getting volume id." status result)))
    else
      mret (PDict {[ "provider_location" := new_vol_id ]}).

Definition create_cloned_volume (n : nat) (volume src_vref : pyval)
    : D pyval :=
  _ ← eval (getitem src_vref "id");
  volume_id ← eval (getitem volume "id");
  vol_name ← eval (join (volume_name_prefix cfg) volume_id);
  size ← eval (getitem volume "size");
  vol_size ← eval (mul size Ki);
  src_vol_id ← eval (getitem src_vref "provider_location");
  reply ← send b (volumeClone src_vol_id (PStr vol_name));
  status ← eval (getitem reply "status");
  result ← eval (getitem reply "result");
  if truthy status then
    throw (VolumeBackendAPIException (PStr
      (status_result_msg "Error while creating volume [status] "
         " - [result] " "." status result)))
  else
    clone_id ← eval (int rt result);
    let params :=
      PDict {[ "clone_id" := PInt clone_id; "vol_name" := PStr vol_name ]} in
    start_time ← time b;
    let clone_request :=
      {| start_time := start_time; function := "clone_detail";
         param := params |} in
    _ ← monitor rt b n clone_request (clone_check_timeout cfg);
    reply ← send b (volumeDetailByName (PStr vol_name));
    status ← eval (getitem reply "status");
    info ← eval (getitem reply "volumeInfoResult");
    new_vol_id ← eval (getitem info "volumeId");
    if truthy status then
      throw (VolumeBackendAPIException
        (status_result_pair
           "Error[%(stat)s - %(res)s] while getting volume id." status result))
    else
      mret (PDict {[ "provider_location" := new_vol_id ]}).

Definition extend_volume (volume new_size : pyval) : D pyval :=
  vol_id ← eval (getitem volume "provider_location");
  new_size_mb ← eval (mul new_size Ki);
  reply ← send b (volumeExtend vol_id new_size_mb);
  status ← eval (getitem reply "status");
  result ← eval (getitem reply "result");
  if truthy status then
    throw (VolumeBackendAPIException
      (status_result_pair
         "Error while extending volume [status] %(stat)s - [result] %(res)s."
         status result))
  else
    mret PNone.

End Driver.

(** *** Volume statistics *)

(** [v == s] for a text literal [s]. *)
Definition eq_str (v : pyval) (s : string) : bool :=
  match v with
  | PStr t => String.eqb t s
  | _ => false
  end.

Fixpoint chars (s : string) : list pyval :=
  match s with
  | EmptyString => []
  | String a s' => PStr (String a "") :: chars s'
  end.

(** The items a [for] loop draws from [v]: the elements of a sequence, the
    characters of a text, the keys of a dictionary. *)
Definition iter (v : pyval) : res (list pyval) :=
  match v with
  | PTuple items => Ok items
  | PStr s => Ok (chars s)
  | PDict fields => Ok (PStr <$> (map_to_list fields).*1)
  | PNone | PBool _ | PInt _ => Raise TypeError
  end.

Section Stats.

(** Python's floats and [float(v)], which the model of values leaves out. *)
Variable F : Type.
Variable float : pyval -> res F.

Variable rt : runtime.
Variable b : backend.

(** What a statistics dictionary holds. *)
Inductive stat : Type :=
| Val (v : pyval)
| Float (f : F).

(** The loop [for info in info_list], with the dictionary as the loop
    leaves it, also when it raises. *)
Fixpoint for_info (info_list : list pyval) (stats : gmap string stat)
    : res unit * gmap string stat :=
  match info_list with
  | [] => (Ok tt, stats)
  | info :: rest =>
      match getitem info "name" with
      | Raise e => (Raise e, stats)
      | Ok name =>
          if eq_str name "freeCapacityGB" then
            match value ← getitem info "value"; float value with
            | Ok f => for_info rest (<["free_capacity_gb" := Float f]> stats)
            | Raise e => (Raise e, stats)
            end
          else if eq_str name "totalCapacityGB" then
            match value ← getitem info "value"; float value with
            | Ok f => for_info rest (<["total_capacity_gb" := Float f]> stats)
            | Raise e => (Raise e, stats)
            end
          else for_info rest stats
      end
  end.

(** [DiscoDriver.VERSION] *)
Definition VERSION : string := "1.1".

(** [backend_name] is [self.configuration.safe_get('volume_backend_name')];
    the result is the new [self._stats] and the log. *)
Definition _update_volume_stats (backend_name : pyval) (log : list api_call)
    : gmap string stat * list api_call :=
  let stats : gmap string stat :=
    <["QoS_support" := Val (PBool false)]>
    (<["vendor_name" := Val (PStr "ITRI")]>
    (<["reserved_percentage" := Val (PInt 0)]>
    (<["driver_version" := Val (PStr VERSION)]>
    (<["storage_protocol" := Val (PStr "disco")]>
    (<["volume_backend_name" :=
         Val (if truthy backend_name then backend_name else PStr "disco")]>
     ∅))))) in
  let log' := systemInformationList :: log in
  let attempt : res unit * gmap string stat :=
    match answer b (length log) systemInformationList with
    | Raise e => (Raise e, stats)
    | Ok reply =>
        match getitem reply "status" with
        | Raise e => (Raise e, stats)
        | Ok status =>
            if truthy status then
              (Raise (VolumeBackendAPIException (PStr
                 ("Error while getting disco information ["
                    +:+ text_type rt status +:+ "]."))), stats)
            else
              match
                properties ← getitem reply "propertyListResult";
                info_list ← getitem properties "PropertyInfoList";
                iter info_list
              with
              | Raise e => (Raise e, stats)
              | Ok info_list => for_info info_list stats
              end
        end
    end in
  match attempt with
  | (Ok _, stats') => (stats', log')
  | (Raise _, stats') =>
      (<["free_capacity_gb" := Val (PStr "unknown")]>
         (<["total_capacity_gb" := Val (PStr "unknown")]> stats'), log')
  end.

(** [get_volume_stats(refresh)] with [_stats] the statistics held; the
    result is what it returns, which is also what is held afterwards. *)
Definition get_volume_stats (backend_name : pyval) (refresh : bool)
    (_stats : gmap string stat) (log : list api_call)
    : gmap string stat * list api_call :=
  if refresh then _update_volume_stats backend_name log else (_stats, log).

End Stats.

(** *** Set-up and image copies *)

(** Exceptions of Python beyond those the monitor meets. *)
Inductive error : Type :=
| Exn (e : exn)
| AttributeError (name : string)
| UnboundLocalError (name : string).

Section Setup.

(** [str.lower] and [os.path.exists]. *)
Variable lower : string -> string.
Variable exists_ : string -> bool.

(** [rest_ip] and [choice_client] are the values of the options of the
    same names ([None] when unset), [disco_wsdl_path] the text of that
    option.  [None] is a return without error. *)
Definition check_for_setup_error (rest_ip choice_client : pyval)
    (disco_wsdl_path : string) : option error :=
  let rest_without_ip : error + bool :=
    if truthy rest_ip then inr false
    else
      match choice_client with
      | PStr s => inr (String.eqb (lower s) "rest")
      | _ => inl (AttributeError "lower")
      end in
  match rest_without_ip with
  | inl e => Some e
  | inr true =>
      Some (Exn (VolumeBackendAPIException
                   (PStr "Could not find the IP address of the REST server.")))
  | inr false =>
      if exists_ disco_wsdl_path then None
      else Some (Exn (VolumeBackendAPIException
                        (PStr "Could not find DISCO wsdl file.")))
  end.

End Setup.

(** What [disco_attach_detach] and [image_utils] are asked to do. *)
Inductive action : Type :=
| attach (volume : pyval)
| fetch (context image_service image_id path blocksize size : pyval)
| upload (context image_service image_meta path : pyval)
| detach (volume : pyval).

(** The collaborators of the image copies: the constructor
    [AttachDetachDiscoVolume()], its methods, and the two transfers of
    [image_utils]; each may raise. *)
Record collaborators : Type := {
  AttachDetachDiscoVolume : res unit;
  _attach_volume : pyval -> res pyval;
  _detach_volume : pyval -> res unit;
  fetch_to_raw : pyval -> pyval -> pyval -> pyval -> pyval -> pyval -> res unit;
  upload_volume : pyval -> pyval -> pyval -> pyval -> res unit
}.

Section Copies.

Variable c : collaborators.
(** [self.configuration.volume_dd_blocksize] *)
Variable volume_dd_blocksize : pyval.

(** The [finally] clause [attach_detach_volume._detach_volume(volume)]
    after a [try] block that ended as [tried] having done [trace] (latest
    first): an exception of the clause replaces the one in flight. *)
Definition finally_detach (volume : pyval) (tried : option error)
    (trace : list action) : option error * list action :=
  match _detach_volume c volume with
  | Ok _ => (tried, detach volume :: trace)
  | Raise e => (Some (Exn e), detach volume :: trace)
  end.

Definition copy_image_to_volume (context volume image_service image_id : pyval)
    : option error * list action :=
  match AttachDetachDiscoVolume c with
  | Raise _ => (Some (UnboundLocalError "attach_detach_volume"), [])
  | Ok _ =>
      match _attach_volume c volume with
      | Raise e => finally_detach volume (Some (Exn e)) [attach volume]
      | Ok device_info =>
          match path ← getitem device_info "path";
                size ← getitem volume "size";
                mret (path, size) with
          | Raise e => finally_detach volume (Some (Exn e)) [attach volume]
          | Ok (path, size) =>
              let trace :=
                [fetch context image_service image_id path
                   volume_dd_blocksize size; attach volume] in
              match fetch_to_raw c context image_service image_id path
                      volume_dd_blocksize size with
              | Raise e => finally_detach volume (Some (Exn e)) trace
              | Ok _ => finally_detach volume None trace
              end
          end
      end
  end.

Definition copy_volume_to_image (context volume image_service image_meta : pyval)
    : option error * list action :=
  match AttachDetachDiscoVolume c with
  | Raise _ => (Some (UnboundLocalError "attach_detach_volume"), [])
  | Ok _ =>
      match _attach_volume c volume with
      | Raise e => finally_detach volume (Some (Exn e)) [attach volume]
      | Ok device_info =>
          match getitem device_info "path" with
          | Raise e => finally_detach volume (Some (Exn e)) [attach volume]
          | Ok path =>
              let trace :=
                [upload context image_service image_meta path;
                 attach volume] in
              match upload_volume c context image_service image_meta path with
              | Raise e => finally_detach volume (Some (Exn e)) trace
              | Ok _ => finally_detach volume None trace
              end
          end
      end
  end.

End Copies.

(** ** A runtime and scripted worlds for the examples *)

Definition digit (a : ascii) : option Z :=
  let n := Z.of_N (N_of_ascii a) - 48 in
  if Z.leb 0 n && Z.leb n 9 then Some n else None.

Fixpoint digits (acc : Z) (s : string) : option Z :=
  match s with
  | EmptyString => Some acc
  | String a s' =>
      match digit a with
      | Some d => digits (10 * acc + d) s'
      | None => None
      end
  end.

Definition decimal (s : string) : option Z :=
  match s with
  | EmptyString => None
  | String "-" (String a s') => Z.opp <$> digits 0 (String a s')
  | _ => digits 0 s
  end.

(** Renders scalars as CPython does and reads plain decimal numerals; the
    examples hand it nothing else. *)
Definition scalars : runtime := {|
  text_type := fun v =>
    match v with
    | PNone => "None"
    | PBool true => "True"
    | PBool false => "False"
    | PInt z => pretty z
    | PStr s => s
    | PTuple _ | PDict _ => ""
    end;
  int_of_str := decimal
|}.

(** A client that serves [replies] in order, whatever it is asked, and
    [None] once they are used up; the clock reads [clock n] after [n]
    calls. *)
Definition scripted (replies : list pyval) (clock : nat -> Z) : world := {|
  client := fun n _ => Ok (default PNone (replies !! n));
  time_time := clock
|}.

(** Every call takes one second from second 1000 on. *)
Definition ticking (n : nat) : Z := 1000 + Z.of_nat n.

Definition snapshot_reply (status item_status : Z) : pyval :=
  PDict {[ "status" := PInt status; "result" := PInt 1;
           "snapshotInfoResult" := PDict {[ "status" := PInt item_status ]} ]}.

Definition restore_reply (status item_status : Z) : pyval :=
  PDict {[ "status" := PInt status;
           "restoreInfoResult" := PDict {[ "status" := PInt item_status ]} ]}.

Definition clone_reply (status result : Z) : pyval :=
  PDict {[ "status" := PInt status; "result" := PInt result ]}.

Definition snapshot_check : DISCOCheck := {|
  start_time := 1000;
  function := "snapshot_detail";
  param := PDict {[ "snapshot_id" := PInt 7 ]}
|}.

Definition restore_check : DISCOCheck := {|
  start_time := 1000;
  function := "restore_detail";
  param := PDict {[ "restore_id" := PInt 8 ]}
|}.

Definition clone_check : DISCOCheck := {|
  start_time := 1000;
  function := "clone_detail";
  param := PDict {[ "clone_id" := PInt 9; "vol_name" := PStr "openstack-v1" ]}
|}.

(** A check built with a name that is none of the three kinds. *)
Definition volume_check : DISCOCheck := {|
  start_time := 1000;
  function := "volume_detail";
  param := PDict {[ "volume_id" := PInt 4 ]}
|}.

(** A client that gives the same reply to every call. *)
Definition always (reply : pyval) (clock : nat -> Z) : world := {|
  client := fun _ _ => Ok reply;
  time_time := clock
|}.

Definition two_then_success : world :=
  scripted [snapshot_reply 0 2; snapshot_reply 0 2; snapshot_reply 0 1] ticking.

(** ** A backend and collaborators for the examples *)

(** A backend that serves [answers] in order, whatever it is asked, and
    [None] once they are used up; its database knows one volume. *)
Definition scripted_backend (answers : list pyval) (clock : nat -> Z)
    : backend := {|
  answer := fun n _ => Ok (default PNone (answers !! n));
  clock := clock;
  volume_get := fun _ =>
    Ok (PDict {[ "provider_location" := PStr "41"; "name" := PStr "volume-a" ]})
|}.

Definition defaults : configuration := {|
  volume_name_prefix := "openstack-";
  snapshot_check_timeout := 3600;
  restore_check_timeout := 3600;
  clone_check_timeout := 3600
|}.

(** The reply of a call that starts an operation or changes a volume. *)
Definition plain_reply (status : Z) (result : pyval) : pyval :=
  PDict {[ "status" := PInt status; "result" := result ]}.

(** The reply of [volumeDetailByName]. *)
Definition volume_reply (status : Z) (volume_id : pyval) : pyval :=
  PDict {[ "status" := PInt status;
           "volumeInfoResult" := PDict {[ "volumeId" := volume_id ]} ]}.

(** The reply of [systemInformationList]. *)
Definition information_reply (status : Z) (properties : list pyval) : pyval :=
  PDict {[ "status" := PInt status;
           "propertyListResult" :=
             PDict {[ "PropertyInfoList" := PTuple properties ]} ]}.

Definition property (name : string) (value : pyval) : pyval :=
  PDict {[ "name" := PStr name; "value" := value ]}.

(** Whole numbers stand for the floats of the examples. *)
Definition whole (v : pyval) : res Z :=
  match v with
  | PInt z => Ok z
  | PBool b => Ok (if b then 1 else 0)
  | PStr s =>
      match decimal s with
      | Some z => Ok z
      | None => Raise ValueError
      end
  | _ => Raise TypeError
  end.

Definition a_volume : pyval :=
  PDict {[ "id" := PStr "v2"; "size" := PInt 3; "name" := PStr "volume-b";
           "provider_location" := PStr "42" ]}.

Definition a_snapshot : pyval :=
  PDict {[ "volume_id" := PStr "v1"; "display_description" := PStr "nightly";
           "provider_location" := PStr "77" ]}.

Definition lower_ascii (a : ascii) : ascii :=
  let n := nat_of_ascii a in
  if Nat.leb 65 n && Nat.leb n 90 then ascii_of_nat (n + 32) else a.

(** [str.lower] on the letters A to Z. *)
Fixpoint ascii_lower (s : string) : string :=
  match s with
  | EmptyString => EmptyString
  | String a s' => String (lower_ascii a) (ascii_lower s')
  end.

(** Collaborators that attach to a device and whose transfer fails. *)
Definition failing_transfer : collaborators := {|
  AttachDetachDiscoVolume := Ok tt;
  _attach_volume := fun _ => Ok (PDict {[ "path" := PStr "/dev/dms42" ]});
  _detach_volume := fun _ => Ok tt;
  fetch_to_raw := fun _ _ _ _ _ _ => Raise ValueError;
  upload_volume := fun _ _ _ _ => Raise ValueError
|}.

(** * Properties *)

Import loopingcall.

Example snapshot_three_polls :
  timer scalars
    (scripted [snapshot_reply 0 2; snapshot_reply 0 2; snapshot_reply 0 1] ticking)
    snapshot_check 3600 5 [] =
  Done (Ok (snapshot_reply 0 1))
    [snapshotDetail (PInt 7); snapshotDetail (PInt 7); snapshotDetail (PInt 7)].
Proof. vm_compute. reflexivity. Qed.

Lemma code_failure : code "request.failure" = Ok 3.
Proof. reflexivity. Qed.

Lemma code_success : code "request.success" = Ok 1.
Proof. reflexivity. Qed.

Lemma code_ongoing : code "request.ongoing" = Ok 2.
Proof. reflexivity. Qed.

(** An integer equals at most one literal. *)
Lemma eq_int_functional v a b :
  eq_int v a = true -> eq_int v b = true -> a = b.
Proof.
  destruct v as [ | t | z | | | ]; simpl; try discriminate;
    intros Ha Hb; apply Z.eqb_eq in Ha, Hb; congruence.
Qed.

Lemma truthy_int z : truthy (PInt z) = true <-> z <> 0.
Proof.
  simpl. destruct (Z.eqb_spec z 0); simpl; split; intros; try lia; congruence.
Qed.

(** *** The timer *)

Section Timer.

Variable f : M unit.

Lemma wait_continue n calls calls' :
  f calls = (Ok tt, calls') -> wait (S n) f calls = wait n f calls'.
Proof. intros H. simpl. now rewrite H. Qed.

Lemma wait_done n calls calls' retvalue :
  f calls = (Raise (LoopingCallDone retvalue), calls') ->
  wait (S n) f calls = Done (Ok retvalue) calls'.
Proof. intros H. simpl. now rewrite H. Qed.

Lemma wait_raise n calls calls' data :
  f calls = (Raise (VolumeBackendAPIException data), calls') ->
  wait (S n) f calls = Done (Raise (VolumeBackendAPIException data)) calls'.
Proof. intros H. simpl. now rewrite H. Qed.

(** A finished timer stays finished however long it is followed. *)
Lemma wait_stable n m calls r calls' :
  wait n f calls = Done r calls' -> (n <= m)%nat ->
  wait m f calls = Done r calls'.
Proof.
  revert m calls. induction n as [ | n IH]; intros m calls H Hle.
  - discriminate.
  - destruct m as [ | m]; [lia | ].
    simpl in *. destruct (f calls) as [[[] | e] c].
    + apply IH; [assumption | lia].
    + assumption.
Qed.

End Timer.

(** *** One run of the callback *)

Section Iteration.

Variable rt : runtime.
Variable w : world.

(** The run of [_retry_get_detail] whose query is answered by [reply], case
    by case in the order of the source. *)
Lemma retry_answered start_time timeout operation params calls reply rq :
  _call_api w operation params calls = (Ok reply, rq :: calls) ->
  _retry_get_detail rt w start_time timeout operation params calls =
  (match getitem reply "status" with
   | Raise e => Raise e
   | Ok status =>
       if truthy status then Raise (OperationQueryFailed rt operation status)
       else
         match _get_item_status rt operation reply with
         | Raise e => Raise e
         | Ok item_status =>
             if eq_int item_status 3 then
               Raise (OperationFailed rt operation status)
             else if eq_int item_status 1 then Raise (LoopingCallDone reply)
             else if Z.gtb (time_time w (S (length calls)) - start_time) timeout
             then Raise (OperationTimedOut operation)
             else Ok tt
         end
   end, rq :: calls).
Proof.
  intros Hcall. unfold _retry_get_detail, mbind, M_bind. rewrite Hcall.
  unfold lift. destruct (getitem reply "status") as [status | e]; [ | reflexivity].
  destruct (truthy status); [reflexivity | ].
  destruct (_get_item_status rt operation reply) as [item_status | e];
    [ | reflexivity].
  rewrite code_failure. destruct (eq_int item_status 3); [reflexivity | ].
  rewrite code_success. destruct (eq_int item_status 1); [reflexivity | ].
  unfold is_timeout, mbind, M_bind, now, mret, M_ret. simpl.
  destruct (Z.gtb _ _); reflexivity.
Qed.

Lemma reads_inv operation reply c :
  reads rt operation reply c = true ->
  exists status item_status,
    getitem reply "status" = Ok status /\ truthy status = false /\
    _get_item_status rt operation reply = Ok item_status /\
    eq_int item_status c = true.
Proof.
  unfold reads, accepted. intros H. apply andb_true_iff in H as [Ha Hi].
  destruct (getitem reply "status") as [status | ]; [ | discriminate].
  destruct (_get_item_status rt operation reply) as [item_status | ];
    [ | discriminate].
  exists status, item_status. apply negb_true_iff in Ha. auto.
Qed.

Lemma eq_int_other v a b : eq_int v a = true -> a <> b -> eq_int v b = false.
Proof.
  intros Ha Hne. destruct (eq_int v b) eqn:Hb; [ | reflexivity].
  exfalso. apply Hne. exact (eq_int_functional v a b Ha Hb).
Qed.

(** A Success reply ends the run with [LoopingCallDone(retvalue=reply)]:
    the clock is not consulted. *)
Lemma retry_success start_time timeout operation params calls reply rq :
  _call_api w operation params calls = (Ok reply, rq :: calls) ->
  reads rt operation reply 1 = true ->
  _retry_get_detail rt w start_time timeout operation params calls =
  (Raise (LoopingCallDone reply), rq :: calls).
Proof.
  intros Hcall Hr. rewrite (retry_answered _ _ _ _ _ _ _ Hcall).
  apply reads_inv in Hr as (status & item_status & -> & -> & -> & Heq).
  rewrite (eq_int_other _ 1 3 Heq) by lia. now rewrite Heq.
Qed.

(** A Failure reply ends the run with the details error. *)
Lemma retry_failure start_time timeout operation params calls reply rq :
  _call_api w operation params calls = (Ok reply, rq :: calls) ->
  reads rt operation reply 3 = true ->
  exists status,
    getitem reply "status" = Ok status /\ truthy status = false /\
    _retry_get_detail rt w start_time timeout operation params calls =
    (Raise (OperationFailed rt operation status), rq :: calls).
Proof.
  intros Hcall Hr. rewrite (retry_answered _ _ _ _ _ _ _ Hcall).
  apply reads_inv in Hr as (status & item_status & Hs & Ht & -> & Heq).
  exists status. rewrite Hs, Ht, Heq. auto.
Qed.

(** Any accepted reply whose item status is neither 3 nor 1 leaves the
    decision to the clock. *)
Lemma retry_other start_time timeout operation params calls reply rq
    status item_status :
  _call_api w operation params calls = (Ok reply, rq :: calls) ->
  getitem reply "status" = Ok status -> truthy status = false ->
  _get_item_status rt operation reply = Ok item_status ->
  eq_int item_status 3 = false -> eq_int item_status 1 = false ->
  _retry_get_detail rt w start_time timeout operation params calls =
  (if Z.gtb (time_time w (S (length calls)) - start_time) timeout
   then Raise (OperationTimedOut operation) else Ok tt, rq :: calls).
Proof.
  intros Hcall Hs Ht Hi H3 H1. rewrite (retry_answered _ _ _ _ _ _ _ Hcall).
  now rewrite Hs, Ht, Hi, H3, H1.
Qed.

Lemma retry_ongoing start_time timeout operation params calls reply rq :
  _call_api w operation params calls = (Ok reply, rq :: calls) ->
  reads rt operation reply 2 = true ->
  _retry_get_detail rt w start_time timeout operation params calls =
  (if Z.gtb (time_time w (S (length calls)) - start_time) timeout
   then Raise (OperationTimedOut operation) else Ok tt, rq :: calls).
Proof.
  intros Hcall Hr.
  apply reads_inv in Hr as (status & item_status & Hs & Ht & Hi & Heq).
  apply retry_other with (reply := reply) (status := status)
    (item_status := item_status); try assumption.
  - apply (eq_int_other _ 2 3 Heq). lia.
  - apply (eq_int_other _ 2 1 Heq). lia.
Qed.

Lemma retry_ongoing_in_time start_time timeout operation params calls reply rq :
  _call_api w operation params calls = (Ok reply, rq :: calls) ->
  reads rt operation reply 2 = true ->
  time_time w (S (length calls)) - start_time <= timeout ->
  _retry_get_detail rt w start_time timeout operation params calls =
  (Ok tt, rq :: calls).
Proof.
  intros Hcall Hr Hle. rewrite (retry_ongoing _ _ _ _ _ _ _ Hcall Hr).
  destruct (Z.gtb_spec (time_time w (S (length calls)) - start_time) timeout);
    [lia | reflexivity].
Qed.

Lemma retry_ongoing_late start_time timeout operation params calls reply rq :
  _call_api w operation params calls = (Ok reply, rq :: calls) ->
  reads rt operation reply 2 = true ->
  time_time w (S (length calls)) - start_time > timeout ->
  _retry_get_detail rt w start_time timeout operation params calls =
  (Raise (OperationTimedOut operation), rq :: calls).
Proof.
  intros Hcall Hr Hgt. rewrite (retry_ongoing _ _ _ _ _ _ _ Hcall Hr).
  destruct (Z.gtb_spec (time_time w (S (length calls)) - start_time) timeout);
    [reflexivity | lia].
Qed.

(** [_monitor_request] follows its timer: it raises what the timer raises
    and returns [None] where the timer hands over a value. *)
Lemma monitor_of_timer_value self timeout n calls v calls' :
  timer rt w self timeout n calls = Done (Ok v) calls' ->
  _monitor_request rt w self timeout n calls = Done (Ok PNone) calls'.
Proof. intros H. unfold _monitor_request. now rewrite H. Qed.

Lemma monitor_of_timer_raise self timeout n calls e calls' :
  timer rt w self timeout n calls = Done (Raise e) calls' ->
  _monitor_request rt w self timeout n calls = Done (Raise e) calls'.
Proof. intros H. unfold _monitor_request. now rewrite H. Qed.

Lemma monitor_of_timer_polling self timeout n calls calls' :
  timer rt w self timeout n calls = Polling calls' ->
  _monitor_request rt w self timeout n calls = Polling calls'.
Proof. intros H. unfold _monitor_request. now rewrite H. Qed.

Lemma timer_stable self timeout n m calls r calls' :
  timer rt w self timeout n calls = Done r calls' -> (n <= m)%nat ->
  timer rt w self timeout m calls = Done r calls'.
Proof. unfold timer. apply wait_stable. Qed.

(** The scenario of two Ongoing replies and a Success reply, all within
    the deadline. *)
Lemma timer_ongoing_ongoing_success self timeout r0 r1 r2 :
  answered w (function self) (param self) 0 r0 ->
  reads rt (function self) r0 2 = true ->
  answered w (function self) (param self) 1 r1 ->
  reads rt (function self) r1 2 = true ->
  answered w (function self) (param self) 2 r2 ->
  reads rt (function self) r2 1 = true ->
  time_time w 1 - start_time self <= timeout ->
  time_time w 2 - start_time self <= timeout ->
  exists calls, length calls = 3%nat /\
    forall n, (3 <= n)%nat ->
      timer rt w self timeout n [] = Done (Ok r2) calls.
Proof.
  intros A0 R0 A1 R1 A2 R2 T1 T2.
  destruct (A0 [] eq_refl) as [q0 H0].
  destruct (A1 [q0] eq_refl) as [q1 H1].
  destruct (A2 [q1; q0] eq_refl) as [q2 H2].
  exists [q2; q1; q0]. split; [reflexivity | ].
  intros n Hn. apply timer_stable with (n := 3%nat); [ | assumption].
  unfold timer.
  rewrite (wait_continue _ 2 [] [q0])
    by (apply retry_ongoing_in_time with (reply := r0); assumption).
  rewrite (wait_continue _ 1 [q0] [q1; q0])
    by (apply retry_ongoing_in_time with (reply := r1); assumption).
  apply wait_done. apply retry_success; assumption.
Qed.

(** An Ongoing reply within the deadline followed by a Failure reply. *)
Lemma timer_ongoing_failure self timeout r0 r1 :
  answered w (function self) (param self) 0 r0 ->
  reads rt (function self) r0 2 = true ->
  answered w (function self) (param self) 1 r1 ->
  reads rt (function self) r1 3 = true ->
  time_time w 1 - start_time self <= timeout ->
  exists status calls,
    getitem r1 "status" = Ok status /\ truthy status = false /\
    length calls = 2%nat /\
    forall n, (2 <= n)%nat ->
      timer rt w self timeout n [] =
      Done (Raise (OperationFailed rt (function self) status)) calls.
Proof.
  intros A0 R0 A1 R1 T1.
  destruct (A0 [] eq_refl) as [q0 H0].
  destruct (A1 [q0] eq_refl) as [q1 H1].
  destruct (retry_failure (start_time self) timeout _ _ _ _ _ H1 R1)
    as (status & Hs & Ht & Hrun).
  exists status, [q1; q0]. repeat split; try assumption.
  intros n Hn. apply timer_stable with (n := 2%nat); [ | assumption].
  unfold timer.
  rewrite (wait_continue _ 1 [] [q0])
    by (apply retry_ongoing_in_time with (reply := r0); assumption).
  apply wait_raise. exact Hrun.
Qed.

End Iteration.

(** *** Scripted worlds *)

Lemma answered_by_call w operation params rq k reply :
  (forall calls, _call_api w operation params calls = call w rq calls) ->
  client w k rq = Ok reply ->
  answered w operation params k reply.
Proof. intros H Hk calls <-. exists rq. rewrite H. unfold call. now rewrite Hk. Qed.

Lemma scripted_answered replies clock operation params rq k :
  (forall w calls, _call_api w operation params calls = call w rq calls) ->
  answered (scripted replies clock) operation params k
    (default PNone (replies !! k)).
Proof. intros H calls <-. exists rq. rewrite H. reflexivity. Qed.

(** *** The scenarios of the specification *)

Section Scenarios.

Variable rt : runtime.
Variable w : world.

(** C1 (as amended).  For a check of any of the three kinds whose status
    queries are answered Ongoing, Ongoing, Success, with the deadline not
    passed at the two Ongoing polls: the timer ends after exactly three
    queries and hands the whole Success reply to [wait()];
    [_monitor_request] then returns [None] without raising, the reply is
    not returned to the initiator. *)
Theorem three_polls_then_success self timeout r0 r1 r2 :
  answered w (function self) (param self) 0 r0 ->
  reads rt (function self) r0 2 = true ->
  answered w (function self) (param self) 1 r1 ->
  reads rt (function self) r1 2 = true ->
  answered w (function self) (param self) 2 r2 ->
  reads rt (function self) r2 1 = true ->
  time_time w 1 - start_time self <= timeout ->
  time_time w 2 - start_time self <= timeout ->
  exists calls, length calls = 3%nat /\
    forall n, (3 <= n)%nat ->
      timer rt w self timeout n [] = Done (Ok r2) calls /\
      _monitor_request rt w self timeout n [] = Done (Ok PNone) calls.
Proof.
  intros A0 R0 A1 R1 A2 R2 T1 T2.
  destruct (timer_ongoing_ongoing_success rt w self timeout r0 r1 r2)
    as (calls & Hlen & Hrun); try assumption.
  exists calls. split; [assumption | ]. intros n Hn. split.
  - now apply Hrun.
  - apply monitor_of_timer_value with (v := r2). now apply Hrun.
Qed.

(** C4 (as amended).  Answered Ongoing within the deadline and then
    Failure, the monitor raises the details error after exactly two status
    queries, however long it is followed: no third query is made. *)
Theorem ongoing_then_failure self timeout r0 r1 :
  answered w (function self) (param self) 0 r0 ->
  reads rt (function self) r0 2 = true ->
  answered w (function self) (param self) 1 r1 ->
  reads rt (function self) r1 3 = true ->
  time_time w 1 - start_time self <= timeout ->
  exists status calls,
    getitem r1 "status" = Ok status /\ length calls = 2%nat /\
    forall n, (2 <= n)%nat ->
      _monitor_request rt w self timeout n [] =
      Done (Raise (OperationFailed rt (function self) status)) calls.
Proof.
  intros A0 R0 A1 R1 T1.
  destruct (timer_ongoing_failure rt w self timeout r0 r1)
    as (status & calls & Hs & _ & Hlen & Hrun); try assumption.
  exists status, calls. repeat split; try assumption.
  intros n Hn. apply monitor_of_timer_raise. now apply Hrun.
Qed.

End Scenarios.

Lemma three_polls_then_success_witness :
  answered two_then_success "snapshot_detail" (param snapshot_check) 0
    (snapshot_reply 0 2) /\
  reads scalars "snapshot_detail" (snapshot_reply 0 2) 2 = true /\
  answered two_then_success "snapshot_detail" (param snapshot_check) 1
    (snapshot_reply 0 2) /\
  answered two_then_success "snapshot_detail" (param snapshot_check) 2
    (snapshot_reply 0 1) /\
  reads scalars "snapshot_detail" (snapshot_reply 0 1) 1 = true /\
  time_time two_then_success 1 - 1000 <= 3600 /\
  time_time two_then_success 2 - 1000 <= 3600 /\
  exists calls, length calls = 3%nat /\
    forall n, (3 <= n)%nat ->
      timer scalars two_then_success snapshot_check 3600 n [] =
        Done (Ok (snapshot_reply 0 1)) calls /\
      _monitor_request scalars two_then_success snapshot_check 3600 n [] =
        Done (Ok PNone) calls.
Proof.
  assert (A : forall k, answered two_then_success "snapshot_detail"
                (param snapshot_check) k
                (default PNone
                   ([snapshot_reply 0 2; snapshot_reply 0 2; snapshot_reply 0 1]
                      !! k))).
  { intros k. apply scripted_answered with (rq := snapshotDetail (PInt 7)).
    intros; reflexivity. }
  split; [exact (A 0%nat) | ].
  split; [vm_compute; reflexivity | ].
  split; [exact (A 1%nat) | ].
  split; [exact (A 2%nat) | ].
  split; [vm_compute; reflexivity | ].
  split; [vm_compute; discriminate | ].
  split; [vm_compute; discriminate | ].
  apply (three_polls_then_success scalars two_then_success snapshot_check 3600
           (snapshot_reply 0 2) (snapshot_reply 0 2) (snapshot_reply 0 1)).
  - exact (A 0%nat).
  - vm_compute; reflexivity.
  - exact (A 1%nat).
  - vm_compute; reflexivity.
  - exact (A 2%nat).
  - vm_compute; reflexivity.
  - vm_compute; discriminate.
  - vm_compute; discriminate.
Defined.

(** C1 as stated does not hold: with the three queries of a snapshot check
    answered Ongoing, Ongoing, Success well within the deadline,
    [_monitor_request] never yields the Success reply as its result; what
    it returns is [None]. *)
Lemma monitor_request_drops_the_reply :
  (forall k, answered two_then_success "snapshot_detail"
     (param snapshot_check) k
     (default PNone
        ([snapshot_reply 0 2; snapshot_reply 0 2; snapshot_reply 0 1] !! k))) /\
  reads scalars "snapshot_detail" (snapshot_reply 0 2) 2 = true /\
  reads scalars "snapshot_detail" (snapshot_reply 0 1) 1 = true /\
  _monitor_request scalars two_then_success snapshot_check 3600 3 [] =
    Done (Ok PNone)
      [snapshotDetail (PInt 7); snapshotDetail (PInt 7);
       snapshotDetail (PInt 7)] /\
  forall n calls,
    _monitor_request scalars two_then_success snapshot_check 3600 n [] <>
    Done (Ok (snapshot_reply 0 1)) calls.
Proof.
  assert (E : _monitor_request scalars two_then_success snapshot_check 3600 3 []
              = Done (Ok PNone)
                  [snapshotDetail (PInt 7); snapshotDetail (PInt 7);
                   snapshotDetail (PInt 7)])
    by (vm_compute; reflexivity).
  split.
  { intros k. apply scripted_answered with (rq := snapshotDetail (PInt 7)).
    intros; reflexivity. }
  split; [vm_compute; reflexivity | ].
  split; [vm_compute; reflexivity | ].
  split; [exact E | ].
  intros n calls H.
  destruct n as [ | [ | [ | n]]]; vm_compute in H; discriminate H.
Qed.

Lemma ongoing_then_failure_witness :
  let w := scripted [clone_reply 0 2; clone_reply 0 3] ticking in
  answered w "clone_detail" (param clone_check) 0 (clone_reply 0 2) /\
  reads scalars "clone_detail" (clone_reply 0 2) 2 = true /\
  answered w "clone_detail" (param clone_check) 1 (clone_reply 0 3) /\
  reads scalars "clone_detail" (clone_reply 0 3) 3 = true /\
  time_time w 1 - 1000 <= 3600 /\
  exists status calls,
    getitem (clone_reply 0 3) "status" = Ok status /\ length calls = 2%nat /\
    forall n, (2 <= n)%nat ->
      _monitor_request scalars w clone_check 3600 n [] =
      Done (Raise (OperationFailed scalars "clone_detail" status)) calls.
Proof.
  intros w.
  assert (A : forall k, answered w "clone_detail" (param clone_check) k
                (default PNone ([clone_reply 0 2; clone_reply 0 3] !! k))).
  { intros k. apply scripted_answered
      with (rq := cloneDetail (PInt 9) (PStr "openstack-v1")).
    intros; reflexivity. }
  split; [exact (A 0%nat) | ].
  split; [vm_compute; reflexivity | ].
  split; [exact (A 1%nat) | ].
  split; [vm_compute; reflexivity | ].
  split; [vm_compute; discriminate | ].
  apply (ongoing_then_failure scalars w clone_check 3600
           (clone_reply 0 2) (clone_reply 0 3)).
  - exact (A 0%nat).
  - vm_compute; reflexivity.
  - exact (A 1%nat).
  - vm_compute; reflexivity.
  - vm_compute; discriminate.
Defined.

Example restore_three_polls :
  _monitor_request scalars
    (scripted [restore_reply 0 2; restore_reply 0 2; restore_reply 0 1] ticking)
    restore_check 3600 5 [] =
  Done (Ok PNone)
    [restoreDetail (PInt 8); restoreDetail (PInt 8); restoreDetail (PInt 8)].
Proof. vm_compute. reflexivity. Qed.

Example clone_three_polls :
  timer scalars
    (scripted [clone_reply 0 2; clone_reply 0 2; clone_reply 0 1] ticking)
    clone_check 3600 5 [] =
  Done (Ok (clone_reply 0 1))
    [cloneDetail (PInt 9) (PStr "openstack-v1");
     cloneDetail (PInt 9) (PStr "openstack-v1");
     cloneDetail (PInt 9) (PStr "openstack-v1")].
Proof. vm_compute. reflexivity. Qed.

Example ongoing_then_failure_run :
  _monitor_request scalars
    (scripted [clone_reply 0 2; clone_reply 0 3; clone_reply 0 1] ticking)
    clone_check 3600 10 [] =
  Done (Raise (VolumeBackendAPIException
          (PStr "Error while getting clone_detail details, returned code: 0.")))
    [cloneDetail (PInt 9) (PStr "openstack-v1");
     cloneDetail (PInt 9) (PStr "openstack-v1")].
Proof. vm_compute. reflexivity. Qed.

(** *** Errors and their order *)

Section Errors.

Variable rt : runtime.
Variable w : world.

Lemma retry_transport_error start_time timeout operation params calls reply rq
    status :
  _call_api w operation params calls = (Ok reply, rq :: calls) ->
  getitem reply "status" = Ok status -> truthy status = true ->
  _retry_get_detail rt w start_time timeout operation params calls =
  (Raise (OperationQueryFailed rt operation status), rq :: calls).
Proof.
  intros Hcall Hs Ht. rewrite (retry_answered _ _ _ _ _ _ _ _ _ Hcall).
  now rewrite Hs, Ht.
Qed.

Lemma call_api_unknown operation params calls :
  operation ∉ kinds ->
  _call_api w operation params calls =
  (Raise (UnsupportedOperationKind operation), calls).
Proof.
  unfold kinds. intros Hk.
  apply not_elem_of_cons in Hk as [H1 Hk].
  apply not_elem_of_cons in Hk as [H2 Hk].
  apply not_elem_of_cons in Hk as [H3 _].
  unfold _call_api.
  apply String.eqb_neq in H1, H2, H3. now rewrite H1, H2, H3.
Qed.

(** C7.  For a check built with any operation name outside the three
    kinds, the monitor raises the unknown-operation error with an empty
    call log: [_call_api] raises before it reaches the client. *)
Theorem unknown_kind_raises_before_any_call self timeout :
  function self ∉ kinds ->
  forall n, (1 <= n)%nat ->
    _monitor_request rt w self timeout n [] =
    Done (Raise (UnsupportedOperationKind (function self))) [].
Proof.
  intros Hk n Hn. apply monitor_of_timer_raise.
  apply timer_stable with (n := 1%nat); [ | assumption].
  unfold timer. apply wait_raise.
  unfold _retry_get_detail, mbind, M_bind.
  now rewrite (call_api_unknown _ _ _ Hk).
Qed.

End Errors.

(** *** The place of the deadline test *)

Section Deadline.

Variable rt : runtime.
Variable w : world.

(** The query does not look at the clock. *)
Lemma call_api_clock clock operation params calls :
  _call_api {| client := client w; time_time := clock |} operation params calls
  = _call_api w operation params calls.
Proof. reflexivity. Qed.

Lemma getitem_not_timeout v k operation :
  getitem v k <> Raise (OperationTimedOut operation).
Proof.
  unfold getitem. destruct v as [ | | | | | fields]; try discriminate.
  destruct (fields !! k); discriminate.
Qed.

Lemma int_not_timeout v operation :
  int rt v <> Raise (OperationTimedOut operation).
Proof.
  unfold int. destruct v as [ | | | s | | ]; try discriminate.
  destruct (int_of_str rt s); discriminate.
Qed.

(** No failure of the status extraction is the timeout error. *)
Lemma get_item_status_not_timeout operation reply operation' :
  _get_item_status rt operation reply <> Raise (OperationTimedOut operation').
Proof.
  assert (G : forall v k, getitem v k <> Raise (OperationTimedOut operation'))
    by (intros; apply getitem_not_timeout).
  assert (B : forall k,
    (info ← getitem reply k; getitem info "status") <>
    Raise (OperationTimedOut operation')).
  { intros k. unfold mbind, res_bind.
    destruct (getitem reply k) as [info | e] eqn:E; [apply G | ].
    rewrite <- E. apply G. }
  assert (C :
    (result ← getitem reply "result"; z ← int rt result; mret (PInt z)) <>
    Raise (OperationTimedOut operation')).
  { unfold mbind, res_bind.
    destruct (getitem reply "result") as [result | e] eqn:E.
    - destruct (int rt result) as [z | e] eqn:Ei; [discriminate | ].
      intros H. apply (int_not_timeout result operation'). congruence.
    - rewrite <- E. apply G. }
  unfold _get_item_status.
  destruct reply; try discriminate;
    repeat (match goal with |- context [String.eqb ?a ?b] =>
              destruct (String.eqb a b) end);
    first [apply B | apply C | discriminate].
Qed.

(** In the run of [_retry_get_detail] whose query is answered by [reply]:
    a reply that reads Success raises [LoopingCallDone] with that reply,
    and a reply that reads Failure raises the details error, whatever the
    clock says and so also when the deadline has long passed; and if the
    run raises the timeout error, the reply was accepted, read neither
    Success nor Failure, and the deadline had passed. *)
Lemma run_checks_status_first start_time timeout operation
    params calls reply rq :
  _call_api w operation params calls = (Ok reply, rq :: calls) ->
  (reads rt operation reply 1 = true ->
   forall clock,
     let late := {| client := client w; time_time := clock |} in
     _retry_get_detail rt late start_time timeout operation params calls =
       (Raise (LoopingCallDone reply), rq :: calls) /\
     forall n,
       wait (S n)
         (_retry_get_detail rt late start_time timeout operation params) calls
       = Done (Ok reply) (rq :: calls)) /\
  (reads rt operation reply 3 = true ->
   forall clock,
     let late := {| client := client w; time_time := clock |} in
     exists status,
       getitem reply "status" = Ok status /\
       _retry_get_detail rt late start_time timeout operation params calls =
       (Raise (OperationFailed rt operation status), rq :: calls)) /\
  (_retry_get_detail rt w start_time timeout operation params calls =
     (Raise (OperationTimedOut operation), rq :: calls) ->
   accepted reply = true /\
   reads rt operation reply 1 = false /\
   reads rt operation reply 3 = false /\
   time_time w (S (length calls)) - start_time > timeout).
Proof.
  intros Hcall. split; [ | split].
  - intros Hr clock late.
    assert (Hrun : _retry_get_detail rt late start_time timeout operation
                     params calls = (Raise (LoopingCallDone reply), rq :: calls)).
    { apply retry_success; [exact Hcall | assumption]. }
    split; [exact Hrun | ]. intros n. now apply wait_done.
  - intros Hr clock late.
    destruct (retry_failure rt late start_time timeout operation params calls
                reply rq Hcall Hr) as (status & Hs & _ & Hrun).
    exists status. auto.
  - intros Hrun. rewrite (retry_answered _ _ _ _ _ _ _ _ _ Hcall) in Hrun.
    unfold reads, accepted.
    destruct (getitem reply "status") as [status | e] eqn:Hs.
    + destruct (truthy status) eqn:Ht.
      * exfalso. inversion Hrun.
      * destruct (_get_item_status rt operation reply) as [item | e] eqn:Hi.
        -- destruct (eq_int item 3) eqn:H3; [exfalso; inversion Hrun | ].
           destruct (eq_int item 1) eqn:H1; [discriminate Hrun | ].
           destruct (Z.gtb_spec (time_time w (S (length calls)) - start_time)
                       timeout) as [Hlt | Hge]; [ | discriminate Hrun].
           repeat split; try reflexivity. lia.
        -- exfalso. apply (get_item_status_not_timeout operation reply operation).
           rewrite Hi. congruence.
    + exfalso. apply (getitem_not_timeout reply "status" operation).
      rewrite Hs. congruence.
Qed.

(** C10.  An accepted reply whose item status compares equal neither to 1
    nor to 3, whatever value that is, leaves the run without an outcome
    while the deadline has not passed, and the timer goes on to its next
    run; once the deadline has passed the run raises the timeout error and
    the timer ends with it. *)
Theorem other_status_polls_on start_time timeout operation params calls reply
    rq status item_status :
  _call_api w operation params calls = (Ok reply, rq :: calls) ->
  getitem reply "status" = Ok status -> truthy status = false ->
  _get_item_status rt operation reply = Ok item_status ->
  eq_int item_status 1 = false -> eq_int item_status 3 = false ->
  let run := _retry_get_detail rt w start_time timeout operation params in
  (time_time w (S (length calls)) - start_time <= timeout ->
   run calls = (Ok tt, rq :: calls) /\
   forall n, wait (S n) run calls = wait n run (rq :: calls)) /\
  (time_time w (S (length calls)) - start_time > timeout ->
   run calls = (Raise (OperationTimedOut operation), rq :: calls) /\
   forall n, wait (S n) run calls =
             Done (Raise (OperationTimedOut operation)) (rq :: calls)).
Proof.
  intros Hcall Hs Ht Hi H1 H3 run.
  assert (Hrun := retry_other rt w start_time timeout operation params calls
                    reply rq status item_status Hcall Hs Ht Hi H3 H1).
  fold run in Hrun. split; intros Hclock.
  - destruct (Z.gtb_spec (time_time w (S (length calls)) - start_time) timeout);
      [lia | ].
    split; [exact Hrun | ]. intros n. now apply wait_continue.
  - destruct (Z.gtb_spec (time_time w (S (length calls)) - start_time) timeout);
      [ | lia].
    split; [exact Hrun | ]. intros n. now apply wait_raise.
Qed.

End Deadline.

(** *** Running out of time *)

Lemma wait_split f a b calls :
  wait (a + b) f calls =
  match wait a f calls with
  | Polling calls' => wait b f calls'
  | Done r calls' => Done r calls'
  end.
Proof.
  revert calls. induction a as [ | a IH]; intros calls; [reflexivity | ].
  simpl. destruct (f calls) as [[[] | e] calls']; [apply IH | ].
  destruct e; reflexivity.
Qed.

Section AllOngoing.

Variable rt : runtime.
Variable w : world.
Variable self : DISCOCheck.
Variable timeout : Z.

Hypothesis always_ongoing :
  forall k, exists reply,
    answered w (function self) (param self) k reply /\
    reads rt (function self) reply 2 = true.

(** While every clock reading stays within the deadline the timer keeps
    running, one query per run. *)
Lemma timer_polls_on n calls :
  (forall k, (length calls < k <= length calls + n)%nat ->
     time_time w k - start_time self <= timeout) ->
  exists calls', length calls' = (length calls + n)%nat /\
    timer rt w self timeout n calls = Polling calls'.
Proof.
  revert calls. induction n as [ | n IH]; intros calls Hclock.
  - exists calls. split; [lia | reflexivity].
  - destruct (always_ongoing (length calls)) as (reply & Ha & Hr).
    destruct (Ha calls eq_refl) as [rq Hcall].
    destruct (IH (rq :: calls)) as (calls' & Hlen & Hrun).
    { intros k Hk. apply Hclock. simpl in Hk. lia. }
    exists calls'. split; [simpl in Hlen; lia | ].
    unfold timer in *. rewrite (wait_continue _ n calls (rq :: calls)).
    + exact Hrun.
    + apply retry_ongoing_in_time with (reply := reply); try assumption.
      apply Hclock. lia.
Qed.

(** The first reading beyond the deadline ends the timer. *)
Lemma timer_times_out n calls :
  (forall k, (length calls < k <= length calls + n)%nat ->
     time_time w k - start_time self <= timeout) ->
  time_time w (S (length calls + n)) - start_time self > timeout ->
  exists calls', length calls' = S (length calls + n) /\
    forall m, (n < m)%nat ->
      timer rt w self timeout m calls =
      Done (Raise (OperationTimedOut (function self))) calls'.
Proof.
  intros Hclock Hlate.
  destruct (timer_polls_on n calls Hclock) as (calls' & Hlen & Hrun).
  destruct (always_ongoing (length calls')) as (reply & Ha & Hr).
  destruct (Ha calls' eq_refl) as [rq Hcall].
  exists (rq :: calls'). split; [simpl; lia | ].
  intros m Hm. apply timer_stable with (n := (n + 1)%nat); [ | lia].
  unfold timer in *. rewrite wait_split, Hrun. apply wait_raise.
  apply retry_ongoing_late with (reply := reply); try assumption.
  rewrite Hlen. exact Hlate.
Qed.

End AllOngoing.

(** C6.  With every status query answered Ongoing, the elapsed time being
    the clock reading at a poll less the [start_time] the check was built
    with (the same at every poll): as long as the elapsed time at each of
    the first [n] polls is at most the timeout, the monitor has raised
    nothing and is still polling after [n] queries; and if at poll [n+1]
    the elapsed time exceeds the timeout for the first time, the monitor
    raises the timeout error there, after exactly [n+1] queries. *)
Theorem timeout_when_elapsed_first_exceeds rt w self timeout :
  (forall k, exists reply,
     answered w (function self) (param self) k reply /\
     reads rt (function self) reply 2 = true) ->
  forall n,
    (forall k, (1 <= k <= n)%nat ->
       time_time w k - start_time self <= timeout) ->
    (exists calls, length calls = n /\
       _monitor_request rt w self timeout n [] = Polling calls) /\
    (time_time w (S n) - start_time self > timeout ->
     exists calls, length calls = S n /\
       forall m, (n < m)%nat ->
         _monitor_request rt w self timeout m [] =
         Done (Raise (OperationTimedOut (function self))) calls).
Proof.
  intros Hall n Hclock. split.
  - destruct (timer_polls_on rt w self timeout Hall n [])
      as (calls & Hlen & Hrun).
    { intros k Hk. apply Hclock. simpl in Hk. lia. }
    exists calls. split; [exact Hlen | ].
    now apply monitor_of_timer_polling.
  - intros Hlate.
    destruct (timer_times_out rt w self timeout Hall n [])
      as (calls & Hlen & Hrun).
    { intros k Hk. apply Hclock. simpl in Hk. lia. }
    { exact Hlate. }
    exists calls. split; [exact Hlen | ].
    intros m Hm. apply monitor_of_timer_raise. now apply Hrun.
Qed.

(** *** Status extraction *)

Section Extraction.

Variable rt : runtime.

(** C2.  [_get_item_status] takes the status of a reply from the field its
    kind prescribes: for [clone_detail] the integer in the top-level
    [result] field, for [snapshot_detail] the [status] inside
    [snapshotInfoResult], for [restore_detail] the [status] inside
    [restoreInfoResult].  So an accepted clone reply with [result = 1] reads
    Success whether or not it has any nested field, and an accepted
    snapshot reply with [result = 1] and nested status 2 reads Ongoing and
    not Success. *)
Theorem status_extraction_by_kind :
  (forall fields z,
     fields !! "result" = Some (PInt z) ->
     _get_item_status rt "clone_detail" (PDict fields) = Ok (PInt z)) /\
  (forall fields info v,
     fields !! "snapshotInfoResult" = Some (PDict info) ->
     info !! "status" = Some v ->
     _get_item_status rt "snapshot_detail" (PDict fields) = Ok v) /\
  (forall fields info v,
     fields !! "restoreInfoResult" = Some (PDict info) ->
     info !! "status" = Some v ->
     _get_item_status rt "restore_detail" (PDict fields) = Ok v) /\
  (forall fields,
     fields !! "status" = Some (PInt 0) ->
     fields !! "result" = Some (PInt 1) ->
     reads rt "clone_detail" (PDict fields) 1 = true) /\
  (forall fields info,
     fields !! "status" = Some (PInt 0) ->
     fields !! "result" = Some (PInt 1) ->
     fields !! "snapshotInfoResult" = Some (PDict info) ->
     info !! "status" = Some (PInt 2) ->
     reads rt "snapshot_detail" (PDict fields) 2 = true /\
     reads rt "snapshot_detail" (PDict fields) 1 = false).
Proof.
  split; [ | split; [ | split; [ | split]]].
  - intros fields z Hres. unfold _get_item_status. simpl. now rewrite Hres.
  - intros fields info v Hinfo Hv. unfold _get_item_status. simpl.
    rewrite Hinfo. simpl. now rewrite Hv.
  - intros fields info v Hinfo Hv. unfold _get_item_status. simpl.
    rewrite Hinfo. simpl. now rewrite Hv.
  - intros fields Hs Hres. unfold reads, accepted, _get_item_status. simpl.
    now rewrite Hs, Hres.
  - intros fields info Hs Hres Hinfo Hv.
    unfold reads, accepted, _get_item_status. simpl.
    rewrite Hs, Hinfo. simpl. rewrite Hv. split; reflexivity.
Qed.

End Extraction.

Lemma status_extraction_by_kind_witness :
  (exists fields, clone_reply 0 1 = PDict fields /\
     fields !! "snapshotInfoResult" = None /\
     fields !! "restoreInfoResult" = None) /\
  _get_item_status scalars "clone_detail" (clone_reply 0 1) = Ok (PInt 1) /\
  _get_item_status scalars "snapshot_detail" (snapshot_reply 0 2) = Ok (PInt 2) /\
  _get_item_status scalars "restore_detail" (restore_reply 0 3) = Ok (PInt 3) /\
  reads scalars "clone_detail" (clone_reply 0 1) 1 = true /\
  reads scalars "snapshot_detail" (snapshot_reply 0 2) 2 = true /\
  reads scalars "snapshot_detail" (snapshot_reply 0 2) 1 = false.
Proof.
  destruct (status_extraction_by_kind scalars) as (Hc & Hs & Hr & Hc1 & Hs2).
  split; [eexists; split; [reflexivity | split; vm_compute; reflexivity] | ].
  split; [apply Hc; vm_compute; reflexivity | ].
  split; [apply Hs with (info := {[ "status" := PInt 2 ]});
          vm_compute; reflexivity | ].
  split; [apply Hr with (info := {[ "status" := PInt 3 ]});
          vm_compute; reflexivity | ].
  split; [apply Hc1; vm_compute; reflexivity | ].
  apply Hs2 with (info := {[ "status" := PInt 2 ]}); vm_compute; reflexivity.
Defined.

(** *** Replies that cannot be read *)

Section Unreadable.

Variable rt : runtime.
Variable w : world.

Lemma kinds_cases operation :
  operation ∈ kinds ->
  operation = "snapshot_detail" \/ operation = "restore_detail" \/
  operation = "clone_detail".
Proof.
  unfold kinds. rewrite !elem_of_cons, elem_of_nil. tauto.
Qed.

Lemma call_api_kind operation params calls reply calls' :
  _call_api w operation params calls = (Ok reply, calls') ->
  operation ∈ kinds.
Proof.
  unfold _call_api, kinds. intros H.
  rewrite !elem_of_cons.
  destruct (String.eqb_spec operation "snapshot_detail") as [-> | _];
    [auto | ].
  destruct (String.eqb_spec operation "restore_detail") as [-> | _];
    [auto | ].
  destruct (String.eqb_spec operation "clone_detail") as [-> | _];
    [auto | ].
  discriminate H.
Qed.

(** For a known kind and a reply that is not [None], the extraction fails
    only through a subscript or a conversion. *)
Lemma get_item_status_raise operation reply e :
  operation ∈ kinds -> reply <> PNone ->
  _get_item_status rt operation reply = Raise e ->
  e = TypeError \/ e = ValueError \/ exists k, e = KeyError k.
Proof.
  assert (G : forall v k e', getitem v k = Raise e' ->
              e' = TypeError \/ e' = ValueError \/ exists k', e' = KeyError k').
  { intros v k e'. unfold getitem.
    destruct v as [ | | | | | fields]; try (intros [= <-]; auto).
    destruct (fields !! k); [discriminate | ]. intros [= <-]. eauto. }
  assert (B : forall k e',
    (info ← getitem reply k; getitem info "status") = Raise e' ->
    e' = TypeError \/ e' = ValueError \/ exists k', e' = KeyError k').
  { intros k e'. unfold mbind, res_bind.
    destruct (getitem reply k) as [info | e0] eqn:E; [apply G | ].
    intros [= <-]. exact (G _ _ _ E). }
  intros Hk Hnone. apply kinds_cases in Hk as Hop.
  unfold _get_item_status.
  destruct reply as [ | b | z | s | items | fields]; [congruence | | | | | ];
    destruct Hop as [-> | [-> | ->]]; simpl; try apply B;
    unfold mbind, res_bind;
    try (intros [= <-]; auto).
  all: destruct (fields !! "result") as [result | ]; [ | intros [= <-]; eauto].
  all: unfold int; destruct result as [ | | | s | | ]; try discriminate;
    try (intros [= <-]; auto).
  all: destruct (int_of_str rt s); [discriminate | intros [= <-]; auto].
Qed.

(** C8 (as the code has it).  A status query answered by [None] ends the
    monitor at once, after that one query, but with the [TypeError] of
    [reply['status']]; and no run of [_retry_get_detail] whose query was
    answered ever raises the error that [_get_item_status] keeps for a
    [None] reply: its guard comes after the subscript. *)
Theorem none_reply_raises_TypeError self timeout :
  answered w (function self) (param self) 0 PNone ->
  (exists calls, length calls = 1%nat /\
     forall n, (1 <= n)%nat ->
       _monitor_request rt w self timeout n [] = Done (Raise TypeError) calls) /\
  (forall start_time calls reply rq,
     _call_api w (function self) (param self) calls = (Ok reply, rq :: calls) ->
     _retry_get_detail rt w start_time timeout (function self) (param self) calls
     <> (Raise InvalidReply, rq :: calls)).
Proof.
  intros A0. split.
  - destruct (A0 [] eq_refl) as [q0 H0]. exists [q0].
    split; [reflexivity | ]. intros n Hn.
    apply monitor_of_timer_raise. apply timer_stable with (n := 1%nat);
      [ | assumption].
    unfold timer. simpl.
    now rewrite (retry_answered _ _ _ _ _ _ _ _ _ H0).
  - intros st calls reply rq Hcall.
    rewrite (retry_answered _ _ _ _ _ _ _ _ _ Hcall).
    destruct reply as [ | b | z | s | items | fields]; try discriminate.
    simpl (getitem _ _).
    destruct (fields !! "status") as [status | ]; [ | discriminate].
    destruct (truthy status); [discriminate | ].
    destruct (_get_item_status rt (function self) (PDict fields))
      as [item | e] eqn:Hi.
    + destruct (eq_int item 3); [discriminate | ].
      destruct (eq_int item 1); [discriminate | ].
      destruct (Z.gtb _ _); discriminate.
    + apply get_item_status_raise in Hi;
        [ | exact (call_api_kind _ _ _ _ _ Hcall) | discriminate].
      destruct Hi as [-> | [-> | [k ->]]]; discriminate.
Qed.

End Unreadable.

(** *** What the errors carry *)

Lemma append_char_inj s s' a :
  s +:+ String a "" = s' +:+ String a "" -> s = s'.
Proof.
  revert s'. induction s as [ | c s IH]; intros [ | c' s']; simpl.
  - reflexivity.
  - intros [= -> H]. destruct s'; discriminate H.
  - intros [= -> H]. destruct s; discriminate H.
  - intros [= -> H]. f_equal. now apply IH.
Qed.

Lemma timeout_msg_inj operation operation' :
  timeout_msg operation = timeout_msg operation' -> operation = operation'.
Proof.
  unfold timeout_msg. intros H. apply (inj (String.app _)) in H.
  now apply append_char_inj in H.
Qed.

Lemma details_msg_inj rt operation operation' status status' :
  operation ∈ kinds -> operation' ∈ kinds ->
  details_msg rt operation status = details_msg rt operation' status' ->
  operation = operation' /\ text_type rt status = text_type rt status'.
Proof.
  intros Hk Hk' H. apply kinds_cases in Hk, Hk'. unfold details_msg in H.
  destruct Hk as [-> | [-> | ->]], Hk' as [-> | [-> | ->]];
    try (simpl in H; discriminate H);
    (split; [reflexivity | ]);
    do 3 apply (inj (String.app _)) in H; now apply append_char_inj in H.
Qed.

Lemma getitem_raise v k e :
  getitem v k = Raise e -> e = TypeError \/ e = KeyError k.
Proof.
  unfold getitem. destruct v as [ | | | | | fields]; try (intros [= <-]; auto).
  destruct (fields !! k); [discriminate | ]. intros [= <-]. auto.
Qed.

Section Carried.

Variable rt : runtime.

(** C9 (as amended).  A [VolumeBackendAPIException] raised by a run whose
    query was answered is the details error, made of the operation name and
    the text of the reply's transport status, or the timeout error, made of
    the operation name alone.  The operation name can be read back from
    either of them and from the unknown-operation error, and the status
    text from the details error; the two messages never coincide. *)
Theorem raised_errors_name_operation_and_status :
  (forall w start_time timeout operation params calls reply rq data calls',
     _call_api w operation params calls = (Ok reply, rq :: calls) ->
     _retry_get_detail rt w start_time timeout operation params calls =
       (Raise (VolumeBackendAPIException data), calls') ->
     (exists status, getitem reply "status" = Ok status /\
        data = PStr (details_msg rt operation status)) \/
     data = PStr (timeout_msg operation)) /\
  (forall operation operation' status status',
     operation ∈ kinds -> operation' ∈ kinds ->
     OperationFailed rt operation status = OperationFailed rt operation' status' ->
     operation = operation' /\ text_type rt status = text_type rt status') /\
  (forall operation operation',
     OperationTimedOut operation = OperationTimedOut operation' ->
     operation = operation') /\
  (forall operation operation',
     UnsupportedOperationKind operation = UnsupportedOperationKind operation' ->
     operation = operation') /\
  (forall operation operation' status,
     OperationFailed rt operation status <> OperationTimedOut operation').
Proof.
  split; [ | split; [ | split; [ | split]]].
  - intros w start_time timeout operation params calls reply rq data calls'
      Hcall Hrun.
    rewrite (retry_answered _ _ _ _ _ _ _ _ _ Hcall) in Hrun.
    destruct (getitem reply "status") as [status | e] eqn:Hs.
    + destruct (truthy status).
      { left. exists status. split; [reflexivity | ]. now inversion Hrun. }
      destruct (_get_item_status rt operation reply) as [item | e] eqn:Hi.
      * destruct (eq_int item 3).
        { left. exists status. split; [reflexivity | ]. now inversion Hrun. }
        destruct (eq_int item 1); [discriminate Hrun | ].
        destruct (Z.gtb _ _); [ | discriminate Hrun].
        right. now inversion Hrun.
      * exfalso. apply get_item_status_raise in Hi.
        -- destruct Hi as [-> | [-> | [k ->]]]; discriminate Hrun.
        -- exact (call_api_kind _ _ _ _ _ _ Hcall).
        -- intros ->. discriminate Hs.
    + exfalso. apply getitem_raise in Hs as [-> | ->]; discriminate Hrun.
  - intros operation operation' status status' Hk Hk' H.
    apply details_msg_inj; [assumption | assumption | ].
    unfold OperationFailed in H. congruence.
  - intros operation operation' H. apply timeout_msg_inj.
    unfold OperationTimedOut in H. congruence.
  - intros operation operation' H.
    unfold UnsupportedOperationKind, unknown_msg in H. congruence.
  - intros operation operation' status. discriminate.
Qed.

End Carried.

(** *** The theorems at work *)

Example transport_error_message :
  OperationQueryFailed scalars "snapshot_detail" (PInt 5) =
  VolumeBackendAPIException
    (PStr "Error while getting snapshot_detail details, returned code: 5.").
Proof. vm_compute. reflexivity. Qed.

Lemma volume_detail_unknown : "volume_detail" ∉ kinds.
Proof.
  unfold kinds. rewrite !not_elem_of_cons.
  repeat split; try discriminate. apply not_elem_of_nil.
Qed.

Lemma unknown_kind_raises_before_any_call_witness :
  (function volume_check ∉ kinds) /\
  forall n, (1 <= n)%nat ->
    _monitor_request scalars two_then_success volume_check 3600 n [] =
    Done (Raise (VolumeBackendAPIException
            (PTuple [PStr "Unknown operation %s."; PStr "volume_detail"]))) [].
Proof.
  split; [exact volume_detail_unknown | ].
  exact (unknown_kind_raises_before_any_call scalars two_then_success
           volume_check 3600 volume_detail_unknown).
Defined.

Lemma other_status_polls_on_witness :
  let w := scripted [snapshot_reply 0 7] ticking in
  let run := _retry_get_detail scalars w 1000 3600 "snapshot_detail"
               (param snapshot_check) in
  _call_api w "snapshot_detail" (param snapshot_check) [] =
    (Ok (snapshot_reply 0 7), [snapshotDetail (PInt 7)]) /\
  _get_item_status scalars "snapshot_detail" (snapshot_reply 0 7) = Ok (PInt 7) /\
  time_time w 1 - 1000 <= 3600 /\
  run [] = (Ok tt, [snapshotDetail (PInt 7)]) /\
  forall n, wait (S n) run [] = wait n run [snapshotDetail (PInt 7)].
Proof.
  intros w run.
  assert (Hcall : _call_api w "snapshot_detail" (param snapshot_check) [] =
                  (Ok (snapshot_reply 0 7), [snapshotDetail (PInt 7)]))
    by (vm_compute; reflexivity).
  assert (Hclock : time_time w 1 - 1000 <= 3600) by (vm_compute; discriminate).
  split; [exact Hcall | ].
  split; [vm_compute; reflexivity | ].
  split; [exact Hclock | ].
  destruct (other_status_polls_on scalars w 1000 3600 "snapshot_detail"
              (param snapshot_check) [] (snapshot_reply 0 7)
              (snapshotDetail (PInt 7)) (PInt 0) (PInt 7)) as [Hin _];
    try (vm_compute; reflexivity).
  exact (Hin Hclock).
Defined.

Lemma always_answered reply clock operation params rq k :
  (forall w calls, _call_api w operation params calls = call w rq calls) ->
  answered (always reply clock) operation params k reply.
Proof. intros H. apply answered_by_call with (rq := rq); [apply H | reflexivity]. Qed.

Lemma timeout_when_elapsed_first_exceeds_witness :
  let w := always (restore_reply 0 2) ticking in
  (forall k, exists reply,
     answered w "restore_detail" (param restore_check) k reply /\
     reads scalars "restore_detail" reply 2 = true) /\
  (forall k, (1 <= k <= 2)%nat -> time_time w k - 1000 <= 2) /\
  time_time w 3 - 1000 > 2 /\
  (exists calls, length calls = 2%nat /\
     _monitor_request scalars w restore_check 2 2 [] = Polling calls) /\
  (exists calls, length calls = 3%nat /\
     forall m, (2 < m)%nat ->
       _monitor_request scalars w restore_check 2 m [] =
       Done (Raise (OperationTimedOut "restore_detail")) calls).
Proof.
  intros w.
  assert (Hall : forall k, exists reply,
            answered w (function restore_check) (param restore_check) k reply /\
            reads scalars (function restore_check) reply 2 = true).
  { intros k. exists (restore_reply 0 2). split.
    - apply always_answered with (rq := restoreDetail (PInt 8)).
      intros; reflexivity.
    - vm_compute; reflexivity. }
  assert (Hclock : forall k, (1 <= k <= 2)%nat ->
            time_time w k - start_time restore_check <= 2).
  { intros k Hk. unfold w, always, ticking. simpl. lia. }
  assert (Hlate : time_time w 3 - start_time restore_check > 2)
    by (vm_compute; reflexivity).
  split; [exact Hall | ]. split; [exact Hclock | ]. split; [exact Hlate | ].
  destruct (timeout_when_elapsed_first_exceeds scalars w restore_check 2
              Hall 2 Hclock) as [Hpolling Hout].
  split; [exact Hpolling | exact (Hout Hlate)].
Defined.

Example all_ongoing_run :
  _monitor_request scalars (always (restore_reply 0 2) ticking)
    restore_check 2 10 [] =
  Done (Raise (VolumeBackendAPIException
          (PStr "Timeout while calling restore_detail ")))
    [restoreDetail (PInt 8); restoreDetail (PInt 8); restoreDetail (PInt 8)].
Proof. vm_compute. reflexivity. Qed.

Lemma none_reply_raises_TypeError_witness :
  let w := scripted [] ticking in
  answered w "snapshot_detail" (param snapshot_check) 0 PNone /\
  exists calls, length calls = 1%nat /\
    forall n, (1 <= n)%nat ->
      _monitor_request scalars w snapshot_check 3600 n [] =
      Done (Raise TypeError) calls.
Proof.
  intros w.
  assert (A : answered w "snapshot_detail" (param snapshot_check) 0 PNone).
  { apply (scripted_answered [] ticking "snapshot_detail"
             (param snapshot_check) (snapshotDetail (PInt 7)) 0).
    intros; reflexivity. }
  split; [exact A | ].
  exact (proj1 (none_reply_raises_TypeError scalars w snapshot_check 3600 A)).
Defined.

Example none_reply_run :
  _monitor_request scalars (scripted [] ticking) snapshot_check 3600 1 [] =
  Done (Raise TypeError) [snapshotDetail (PInt 7)].
Proof. vm_compute. reflexivity. Qed.

(** C9 as stated does not hold: two monitors that run out of time after 5
    and after 8000 seconds raise one and the same error value, the message
    with the operation name; the elapsed time is in neither. *)
Lemma timeout_error_drops_the_elapsed_time :
  let soon := always (restore_reply 0 2) (fun _ => 1005) in
  let late := always (restore_reply 0 2) (fun _ => 9000) in
  let e := VolumeBackendAPIException
             (PStr "Timeout while calling restore_detail ") in
  _monitor_request scalars soon restore_check 3 1 [] =
    Done (Raise e) [restoreDetail (PInt 8)] /\
  _monitor_request scalars late restore_check 3 1 [] =
    Done (Raise e) [restoreDetail (PInt 8)] /\
  time_time soon 1 - start_time restore_check = 5 /\
  time_time late 1 - start_time restore_check = 8000.
Proof. repeat split; vm_compute; reflexivity. Qed.

Lemma raised_errors_name_operation_and_status_witness :
  let w := always (restore_reply 0 2) (fun _ => 1005) in
  _call_api w "restore_detail" (param restore_check) [] =
    (Ok (restore_reply 0 2), [restoreDetail (PInt 8)]) /\
  _retry_get_detail scalars w 1000 3 "restore_detail" (param restore_check) [] =
    (Raise (VolumeBackendAPIException
              (PStr "Timeout while calling restore_detail ")),
     [restoreDetail (PInt 8)]) /\
  ((exists status,
      getitem (restore_reply 0 2) "status" = Ok status /\
      PStr "Timeout while calling restore_detail " =
      PStr (details_msg scalars "restore_detail" status)) \/
   PStr "Timeout while calling restore_detail " =
   PStr (timeout_msg "restore_detail")).
Proof.
  intros w.
  assert (Hcall : _call_api w "restore_detail" (param restore_check) [] =
                  (Ok (restore_reply 0 2), [restoreDetail (PInt 8)]))
    by (vm_compute; reflexivity).
  assert (Hrun : _retry_get_detail scalars w 1000 3 "restore_detail"
                   (param restore_check) [] =
                 (Raise (VolumeBackendAPIException
                           (PStr "Timeout while calling restore_detail ")),
                  [restoreDetail (PInt 8)]))
    by (vm_compute; reflexivity).
  split; [exact Hcall | ]. split; [exact Hrun | ].
  exact (proj1 (raised_errors_name_operation_and_status scalars)
           w 1000 3 "restore_detail" (param restore_check) []
           (restore_reply 0 2) (restoreDetail (PInt 8)) _ _ Hcall Hrun).
Defined.

(** * Further properties of the monitor *)

(** *** The query and its parameters *)

Section Query.

Variable rt : runtime.
Variable w : world.

(** [_call_api] either fails before it reaches the client, leaving the log
    as it was, or issues one request that depends on the operation and the
    parameters alone. *)
Lemma call_api_shape operation params :
  (exists e, forall calls,
     _call_api w operation params calls = (Raise e, calls)) \/
  (exists rq, forall calls,
     _call_api w operation params calls = call w rq calls).
Proof.
  unfold _call_api.
  destruct (String.eqb operation "snapshot_detail").
  { unfold mbind, M_bind, lift.
    destruct (getitem params "snapshot_id") as [v | e]; eauto. }
  destruct (String.eqb operation "restore_detail").
  { unfold mbind, M_bind, lift.
    destruct (getitem params "restore_id") as [v | e]; eauto. }
  destruct (String.eqb operation "clone_detail").
  { unfold mbind, M_bind, lift.
    destruct (getitem params "clone_id") as [v | e]; [ | eauto].
    destruct (getitem params "vol_name") as [v' | e]; eauto. }
  left. eexists. intros calls. reflexivity.
Qed.

Lemma retry_without_query start_time timeout operation params e calls :
  _call_api w operation params calls = (Raise e, calls) ->
  _retry_get_detail rt w start_time timeout operation params calls =
  (Raise e, calls).
Proof.
  intros H. unfold _retry_get_detail, mbind, M_bind. now rewrite H.
Qed.

(** A run that reaches the client adds its request to the log, and returns
    normally only if the clock read after the query is within the
    deadline. *)
Lemma retry_with_query start_time timeout operation params rq calls :
  _call_api w operation params calls = call w rq calls ->
  exists r,
    _retry_get_detail rt w start_time timeout operation params calls =
    (r, rq :: calls) /\
    (r = Ok tt -> time_time w (S (length calls)) - start_time <= timeout).
Proof.
  intros H. unfold call in H.
  destruct (client w (length calls) rq) as [reply | e] eqn:Hc.
  - rewrite (retry_answered rt w start_time timeout _ _ _ _ _ H).
    eexists. split; [reflexivity | ].
    destruct (getitem reply "status") as [status | ]; [ | discriminate].
    destruct (truthy status); [discriminate | ].
    destruct (_get_item_status rt operation reply) as [item | ];
      [ | discriminate].
    destruct (eq_int item 3); [discriminate | ].
    destruct (eq_int item 1); [discriminate | ].
    destruct (Z.gtb_spec (time_time w (S (length calls)) - start_time) timeout);
      [discriminate | intros _; lia].
  - exists (Raise e). split; [ | discriminate].
    unfold _retry_get_detail, mbind, M_bind. now rewrite H.
Qed.

(** X1.  A parameter dictionary that lacks the key its operation needs
    ends the monitor with the [KeyError] of that key and an empty call log;
    for a clone the volume name is needed as much as the clone id. *)
Theorem missing_parameter_raises_before_any_call start timeout fields n :
  (1 <= n)%nat ->
  let check operation :=
    {| start_time := start; function := operation; param := PDict fields |} in
  (fields !! "snapshot_id" = None ->
   _monitor_request rt w (check "snapshot_detail") timeout n [] =
   Done (Raise (KeyError "snapshot_id")) []) /\
  (fields !! "restore_id" = None ->
   _monitor_request rt w (check "restore_detail") timeout n [] =
   Done (Raise (KeyError "restore_id")) []) /\
  (fields !! "clone_id" = None ->
   _monitor_request rt w (check "clone_detail") timeout n [] =
   Done (Raise (KeyError "clone_id")) []) /\
  (fields !! "vol_name" = None ->
   (exists clone_id, fields !! "clone_id" = Some clone_id) ->
   _monitor_request rt w (check "clone_detail") timeout n [] =
   Done (Raise (KeyError "vol_name")) []).
Proof.
  intros Hn check.
  assert (R : forall operation k,
            _call_api w operation (PDict fields) [] = (Raise (KeyError k), []) ->
            _monitor_request rt w (check operation) timeout n [] =
            Done (Raise (KeyError k)) []).
  { intros operation k H. apply monitor_of_timer_raise.
    apply timer_stable with (n := 1%nat); [ | assumption].
    unfold timer. simpl.
    now rewrite (retry_without_query _ _ _ _ _ _ H). }
  split; [ | split; [ | split]].
  - intros H. apply R. unfold _call_api, mbind, M_bind, lift. simpl.
    now rewrite H.
  - intros H. apply R. unfold _call_api, mbind, M_bind, lift. simpl.
    now rewrite H.
  - intros H. apply R. unfold _call_api, mbind, M_bind, lift. simpl.
    now rewrite H.
  - intros H [clone_id Hid]. apply R. unfold _call_api, mbind, M_bind, lift.
    simpl. now rewrite Hid, H.
Qed.

End Query.

(** *** The call log and the deadline *)

Section Log.

Variable rt : runtime.
Variable w : world.
Variable self : DISCOCheck.
Variable timeout : Z.

(** One run of the callback of [self]: it leaves the log alone and
    raises, or adds the one request [_call_api] builds. *)
Lemma run_log calls :
  let run := _retry_get_detail rt w (start_time self) timeout (function self)
               (param self) in
  (exists e, run calls = (Raise e, calls)) \/
  (exists rq r,
     (forall c, _call_api w (function self) (param self) c = call w rq c) /\
     run calls = (r, rq :: calls) /\
     (r = Ok tt ->
      time_time w (S (length calls)) - start_time self <= timeout)).
Proof.
  intros run.
  destruct (call_api_shape w (function self) (param self))
    as [[e He] | [rq Hrq]].
  - left. exists e. apply retry_without_query. apply He.
  - right.
    destruct (retry_with_query rt w (start_time self) timeout (function self)
                (param self) rq calls (Hrq calls)) as (r & Hrun & Hr).
    exists rq, r. auto.
Qed.

Lemma timer_log n calls0 :
  let built rq :=
    forall c, _call_api w (function self) (param self) c = call w rq c in
  (forall rq, rq ∈ calls0 -> built rq) ->
  match timer rt w self timeout n calls0 with
  | Polling calls =>
      length calls = (length calls0 + n)%nat /\
      (forall rq, rq ∈ calls -> built rq) /\
      (forall k, (length calls0 < k <= length calls0 + n)%nat ->
         time_time w k - start_time self <= timeout)
  | Done _ calls =>
      (length calls0 <= length calls <= length calls0 + n)%nat /\
      (forall rq, rq ∈ calls -> built rq)
  end.
Proof.
  intros built. unfold timer. revert calls0.
  induction n as [ | n IH]; intros calls0 H0.
  - simpl. split; [lia | ]. split; [exact H0 | ]. intros k Hk. lia.
  - simpl. destruct (run_log calls0) as [[e He] | (rq & r & Hb & Hrun & Hr)].
    + rewrite He. destruct e; (split; [lia | exact H0]).
    + rewrite Hrun.
      assert (H1 : forall rq', rq' ∈ rq :: calls0 -> built rq').
      { intros rq' Hin. apply elem_of_cons in Hin as [-> | Hin]; auto. }
      destruct r as [[] | e].
      * specialize (IH (rq :: calls0) H1). simpl length in IH.
        destruct (wait n _ (rq :: calls0)) as [calls | r' calls].
        -- destruct IH as (Hlen & Hall & Hclock).
           split; [lia | ]. split; [exact Hall | ].
           intros k Hk.
           destruct (decide (k = S (length calls0))) as [-> | Hne].
           ++ now apply Hr.
           ++ apply Hclock. lia.
        -- destruct IH as (Hlen & Hall). split; [lia | exact Hall].
      * destruct e; (split; [simpl; lia | exact H1]).
Qed.

(** X2.  However long the monitor is followed, its call log never holds
    more queries than runs were made, holds exactly one per run while it is
    still polling, and consists of one and the same request: the one
    [_call_api] builds from the operation and the parameters of the
    check. *)
Theorem monitor_repeats_one_query n :
  forall calls,
    (_monitor_request rt w self timeout n [] = Polling calls \/
     exists r, _monitor_request rt w self timeout n [] = Done r calls) ->
    (length calls <= n)%nat /\
    (_monitor_request rt w self timeout n [] = Polling calls ->
     length calls = n) /\
    (forall rq, rq ∈ calls ->
       forall c, _call_api w (function self) (param self) c = call w rq c) /\
    (forall rq rq', rq ∈ calls -> rq' ∈ calls -> rq = rq').
Proof.
  intros calls H.
  assert (L := timer_log n []). simpl in L.
  specialize (L ltac:(intros rq Hin; now apply elem_of_nil in Hin)).
  unfold _monitor_request in H |- *.
  assert (B : (length calls <= n)%nat /\
              (forall rq, rq ∈ calls ->
                 forall c, _call_api w (function self) (param self) c =
                           call w rq c) /\
              (timer rt w self timeout n [] = Polling calls ->
               length calls = n)).
  { destruct (timer rt w self timeout n []) as [calls' | r' calls'].
    - destruct H as [[= <-] | [r [=]]]. destruct L as (Hlen & Hall & _).
      split; [lia | ]. split; [exact Hall | ]. intros _. exact Hlen.
    - destruct L as (Hlen & Hall).
      assert (calls' = calls) as ->.
      { destruct H as [H | [r H]]; destruct r' as [v | e]; congruence. }
      split; [lia | ]. split; [exact Hall | ]. discriminate. }
  destruct B as (Hlen & Hall & Hpoll).
  split; [exact Hlen | ]. split.
  - intros Hp. apply Hpoll.
    destruct (timer rt w self timeout n []) as [calls' | [v | e] calls'];
      congruence.
  - split; [exact Hall | ].
    intros rq rq' Hin Hin'.
    assert (E := Hall rq Hin []). rewrite (Hall rq' Hin' []) in E.
    unfold call in E. congruence.
Qed.

(** X3.  Whatever the client answers, the monitor has ended by the first
    run whose clock reading is beyond the deadline: it cannot poll past
    it. *)
Theorem deadline_bounds_polling n :
  time_time w (S n) - start_time self > timeout ->
  exists r calls,
    (length calls <= S n)%nat /\
    forall m, (S n <= m)%nat ->
      _monitor_request rt w self timeout m [] = Done r calls.
Proof.
  intros Hlate.
  assert (L := timer_log (S n) []). simpl in L.
  specialize (L ltac:(intros rq Hin; now apply elem_of_nil in Hin)).
  destruct (timer rt w self timeout (S n) []) as [calls | r calls] eqn:Ht.
  - destruct L as (_ & _ & Hclock). specialize (Hclock (S n)). lia.
  - destruct L as (Hlen & _).
    destruct r as [v | e].
    + exists (Ok PNone), calls. split; [lia | ]. intros m Hm.
      apply monitor_of_timer_value with (v := v).
      now apply timer_stable with (n := S n).
    + exists (Raise e), calls. split; [lia | ]. intros m Hm.
      apply monitor_of_timer_raise.
      now apply timer_stable with (n := S n).
Qed.

End Log.

(** *** Replies the extraction cannot read *)

Section Lookup.

Variable rt : runtime.
Variable w : world.

(** The first run, once its query is answered, decides the monitor when it
    raises a lookup or conversion error. *)
Lemma monitor_first_run_raises self timeout r0 e :
  answered w (function self) (param self) 0 r0 ->
  (e = TypeError \/ e = ValueError \/ exists k, e = KeyError k) ->
  (forall rq,
     _call_api w (function self) (param self) [] = (Ok r0, [rq]) ->
     _retry_get_detail rt w (start_time self) timeout (function self)
       (param self) [] = (Raise e, [rq])) ->
  exists calls, length calls = 1%nat /\
    forall n, (1 <= n)%nat ->
      _monitor_request rt w self timeout n [] = Done (Raise e) calls.
Proof.
  intros A0 He Hrun. destruct (A0 [] eq_refl) as [q0 H0].
  assert (Hr := Hrun q0 H0).
  exists [q0]. split; [reflexivity | ]. intros n Hn.
  apply monitor_of_timer_raise. apply timer_stable with (n := 1%nat);
    [ | assumption].
  unfold timer. simpl. rewrite Hr.
  destruct He as [-> | [-> | [k ->]]]; reflexivity.
Qed.

(** X4.  A reply the extraction cannot read ends the monitor after its one
    query with the lookup or conversion error of the failing expression: a
    reply without [status], an accepted reply without the field of its
    kind, or a clone result that [int] does not read. *)
Theorem unreadable_reply_aborts_with_lookup_error self timeout fields :
  answered w (function self) (param self) 0 (PDict fields) ->
  let aborts e :=
    exists calls, length calls = 1%nat /\
      forall n, (1 <= n)%nat ->
        _monitor_request rt w self timeout n [] = Done (Raise e) calls in
  (fields !! "status" = None -> aborts (KeyError "status")) /\
  (forall status,
     fields !! "status" = Some status -> truthy status = false ->
     (function self = "snapshot_detail" ->
      fields !! "snapshotInfoResult" = None ->
      aborts (KeyError "snapshotInfoResult")) /\
     (function self = "restore_detail" ->
      fields !! "restoreInfoResult" = None ->
      aborts (KeyError "restoreInfoResult")) /\
     (function self = "snapshot_detail" ->
      fields !! "snapshotInfoResult" = Some PNone ->
      aborts TypeError) /\
     (function self = "clone_detail" ->
      fields !! "result" = None ->
      aborts (KeyError "result")) /\
     (function self = "clone_detail" ->
      forall s, fields !! "result" = Some (PStr s) ->
      int_of_str rt s = None ->
      aborts ValueError)).
Proof.
  intros A0 aborts.
  assert (R : forall e,
    (e = TypeError \/ e = ValueError \/ exists k, e = KeyError k) ->
    (match getitem (PDict fields) "status" with
     | Raise e' => e' = e
     | Ok status =>
         truthy status = false /\
         _get_item_status rt (function self) (PDict fields) = Raise e
     end) -> aborts e).
  { intros e He Hm. apply monitor_first_run_raises with (r0 := PDict fields);
      try assumption.
    intros rq H0.
    rewrite (retry_answered rt w _ _ _ _ _ _ _ H0).
    destruct (getitem (PDict fields) "status") as [status | e'].
    - destruct Hm as [-> ->]. reflexivity.
    - now subst. }
  split.
  - intros Hs. apply R; [eauto | ]. simpl. now rewrite Hs.
  - intros status Hs Ht.
    assert (S : forall e,
      (e = TypeError \/ e = ValueError \/ exists k, e = KeyError k) ->
      _get_item_status rt (function self) (PDict fields) = Raise e ->
      aborts e).
    { intros e He Hi. apply R; [exact He | ]. simpl. rewrite Hs. auto. }
    repeat split.
    + intros Hf Hi. apply S; [eauto | ]. rewrite Hf.
      unfold _get_item_status. simpl. now rewrite Hi.
    + intros Hf Hi. apply S; [eauto | ]. rewrite Hf.
      unfold _get_item_status. simpl. now rewrite Hi.
    + intros Hf Hi. apply S; [eauto | ]. rewrite Hf.
      unfold _get_item_status. simpl. now rewrite Hi.
    + intros Hf Hi. apply S; [eauto | ]. rewrite Hf.
      unfold _get_item_status. simpl. now rewrite Hi.
    + intros Hf s Hi Hn. apply S; [eauto | ]. rewrite Hf.
      unfold _get_item_status. simpl. rewrite Hi. simpl. now rewrite Hn.
Qed.

(** X5.  A status delivered as text is read differently by kind.  For a
    clone it goes through [int]: an accepted reply whose [result] is a text
    that [int] reads as 1 reads Success.  For a snapshot or a restore the
    nested status is compared as it is, a text equals no code, and the run
    leaves the decision to the clock. *)
Theorem text_status_resolves_a_clone_only fields status s :
  fields !! "status" = Some status -> truthy status = false ->
  (fields !! "result" = Some (PStr s) -> int_of_str rt s = Some 1 ->
   reads rt "clone_detail" (PDict fields) 1 = true) /\
  (forall operation info start_time timeout params calls rq,
     (operation = "snapshot_detail" /\
      fields !! "snapshotInfoResult" = Some (PDict info) \/
      operation = "restore_detail" /\
      fields !! "restoreInfoResult" = Some (PDict info)) ->
     info !! "status" = Some (PStr s) ->
     (forall c, reads rt operation (PDict fields) c = false) /\
     (_call_api w operation params calls = (Ok (PDict fields), rq :: calls) ->
      _retry_get_detail rt w start_time timeout operation params calls =
      (if Z.gtb (time_time w (S (length calls)) - start_time) timeout
       then Raise (OperationTimedOut operation) else Ok tt, rq :: calls))).
Proof.
  intros Hs Ht. split.
  - intros Hres Hint. unfold reads, accepted, _get_item_status. simpl.
    rewrite Hs, Ht, Hres. simpl. now rewrite Hint.
  - intros operation info start_time timeout params calls rq Hop Hinfo.
    assert (Hi : _get_item_status rt operation (PDict fields) = Ok (PStr s)).
    { unfold _get_item_status.
      destruct Hop as [[-> Hf] | [-> Hf]]; simpl; rewrite Hf; simpl;
        now rewrite Hinfo. }
    split.
    + intros c. unfold reads. rewrite Hi. simpl. apply andb_false_r.
    + intros Hcall.
      apply retry_other with (reply := PDict fields) (status := status)
        (item_status := PStr s); try assumption; try reflexivity.
      simpl. now rewrite Hs.
Qed.

End Lookup.

(** *** Any number of polls *)

Section Polls.

Variable rt : runtime.
Variable w : world.
Variable self : DISCOCheck.
Variable timeout : Z.

(** While the queries are answered Ongoing within the deadline the timer
    polls on. *)
Lemma timer_polls_while_ongoing m calls0 :
  (forall k, (k < m)%nat ->
     exists reply,
       answered w (function self) (param self) (length calls0 + k) reply /\
       reads rt (function self) reply 2 = true /\
       time_time w (S (length calls0 + k)) - start_time self <= timeout) ->
  exists calls, length calls = (length calls0 + m)%nat /\
    timer rt w self timeout m calls0 = Polling calls.
Proof.
  revert calls0. induction m as [ | m IH]; intros calls0 Hong.
  - exists calls0. split; [lia | reflexivity].
  - destruct (Hong 0%nat ltac:(lia)) as (reply & Ha & Hr & Hc).
    rewrite Nat.add_0_r in Ha, Hc.
    destruct (Ha calls0 eq_refl) as [rq Hcall].
    destruct (IH (rq :: calls0)) as (calls & Hlen & Hrun).
    { intros k Hk. destruct (Hong (S k) ltac:(lia)) as (reply' & Ha' & Hr' & Hc').
      exists reply'. simpl length.
      replace (S (length calls0) + k)%nat with (length calls0 + S k)%nat by lia.
      auto. }
    exists calls. split; [simpl in Hlen; lia | ].
    unfold timer in *. rewrite (wait_continue _ m calls0 (rq :: calls0)).
    + exact Hrun.
    + now apply retry_ongoing_in_time with (reply := reply).
Qed.

(** X6.  After any number [m] of Ongoing replies within the deadline, a
    Success reply ends the monitor without error after exactly [m + 1]
    queries, the timer handing that reply to [wait()], and a Failure reply
    ends it with the details error after exactly [m + 1] queries. *)
Theorem polls_until_the_first_terminal_reply m r :
  (forall k, (k < m)%nat ->
     exists reply,
       answered w (function self) (param self) k reply /\
       reads rt (function self) reply 2 = true /\
       time_time w (S k) - start_time self <= timeout) ->
  answered w (function self) (param self) m r ->
  (reads rt (function self) r 1 = true ->
   exists calls, length calls = S m /\
     forall n, (m < n)%nat ->
       timer rt w self timeout n [] = Done (Ok r) calls /\
       _monitor_request rt w self timeout n [] = Done (Ok PNone) calls) /\
  (reads rt (function self) r 3 = true ->
   exists status calls,
     getitem r "status" = Ok status /\ length calls = S m /\
     forall n, (m < n)%nat ->
       _monitor_request rt w self timeout n [] =
       Done (Raise (OperationFailed rt (function self) status)) calls).
Proof.
  intros Hong Hlast.
  destruct (timer_polls_while_ongoing m []) as (calls & Hlen & Hrun).
  { intros k Hk. simpl. now apply Hong. }
  simpl in Hlen. destruct (Hlast calls Hlen) as [rq Hcall].
  split.
  - intros Hr. exists (rq :: calls). split; [simpl; lia | ].
    intros n Hn.
    assert (Ht : timer rt w self timeout n [] = Done (Ok r) (rq :: calls)).
    { apply timer_stable with (n := (m + 1)%nat); [ | lia].
      unfold timer in *. rewrite wait_split, Hrun. apply wait_done.
      now apply retry_success. }
    split; [exact Ht | ]. now apply monitor_of_timer_value with (v := r).
  - intros Hr.
    destruct (retry_failure rt w (start_time self) timeout _ _ _ _ _ Hcall Hr)
      as (status & Hs & _ & Hfail).
    exists status, (rq :: calls). split; [exact Hs | ].
    split; [simpl; lia | ]. intros n Hn.
    apply monitor_of_timer_raise.
    apply timer_stable with (n := (m + 1)%nat); [ | lia].
    unfold timer in *. rewrite wait_split, Hrun. now apply wait_raise.
Qed.

End Polls.

(** * Properties of the driver *)

(** *** Set-up *)

(** X7.  [check_for_setup_error] returns without error exactly when the
    WSDL file exists and either a REST address is configured or the client
    chosen is a text other than "rest" in any case: with the REST client
    and its address configured, a missing WSDL file still fails the
    set-up. *)
Theorem setup_needs_the_wsdl_file lower exists_ rest_ip choice_client path :
  (check_for_setup_error lower exists_ rest_ip choice_client path = None <->
   exists_ path = true /\
   (truthy rest_ip = true \/
    exists s, choice_client = PStr s /\ lower s <> "rest")) /\
  (truthy rest_ip = true -> exists_ path = false ->
   check_for_setup_error lower exists_ rest_ip choice_client path =
   Some (Exn (VolumeBackendAPIException
                (PStr "Could not find DISCO wsdl file.")))).
Proof.
  unfold check_for_setup_error. split.
  - destruct (truthy rest_ip) eqn:Hip.
    + destruct (exists_ path); intuition congruence.
    + destruct choice_client as [ | | | s | | ];
        try (split; [discriminate | intros [_ [H | (s' & H & _)]]; discriminate]).
      destruct (String.eqb_spec (lower s) "rest") as [Heq | Hne].
      * split; [discriminate | ].
        intros [_ [H | (s' & [= <-] & Hs')]]; [discriminate | contradiction].
      * destruct (exists_ path).
        -- split; [intros _ | reflexivity]. split; [reflexivity | ].
           right. exists s. auto.
        -- split; [discriminate | intros [[=] _]].
  - intros -> ->. reflexivity.
Qed.

(** *** Image copies *)

Section CopyProperties.

Variable c : collaborators.
Variable blocksize : pyval.

(** X8.  Once the constructor has returned, each image copy attaches first
    and detaches last, exactly once each, whatever raises in between, and
    transfers at most once, only after an attachment that returned a
    device with a [path]. *)
Theorem copies_always_detach context volume image_service image :
  AttachDetachDiscoVolume c = Ok tt ->
  (let trace :=
     snd (copy_image_to_volume c blocksize context volume image_service image) in
   trace = [detach volume; attach volume] \/
   exists device_info path size,
     _attach_volume c volume = Ok device_info /\
     getitem device_info "path" = Ok path /\
     getitem volume "size" = Ok size /\
     trace = [detach volume;
              fetch context image_service image path blocksize size;
              attach volume]) /\
  (let trace :=
     snd (copy_volume_to_image c context volume image_service image) in
   trace = [detach volume; attach volume] \/
   exists device_info path,
     _attach_volume c volume = Ok device_info /\
     getitem device_info "path" = Ok path /\
     trace = [detach volume; upload context image_service image path;
              attach volume]).
Proof.
  intros Hnew. unfold copy_image_to_volume, copy_volume_to_image, finally_detach.
  rewrite Hnew. split.
  - destruct (_attach_volume c volume) as [device_info | e] eqn:Ha.
    + unfold mbind, res_bind, mret, res_ret.
      destruct (getitem device_info "path") as [path | e] eqn:Hp.
      * destruct (getitem volume "size") as [size | e] eqn:Hs.
        -- right. exists device_info, path, size.
           repeat split; try assumption.
           destruct (fetch_to_raw c _ _ _ _ _ _);
             destruct (_detach_volume c volume); reflexivity.
        -- left. destruct (_detach_volume c volume); reflexivity.
      * left. destruct (_detach_volume c volume); reflexivity.
    + left. destruct (_detach_volume c volume); reflexivity.
  - destruct (_attach_volume c volume) as [device_info | e] eqn:Ha.
    + destruct (getitem device_info "path") as [path | e] eqn:Hp.
      * right. exists device_info, path. repeat split; try assumption.
        destruct (upload_volume c _ _ _ _);
          destruct (_detach_volume c volume); reflexivity.
      * left. destruct (_detach_volume c volume); reflexivity.
    + left. destruct (_detach_volume c volume); reflexivity.
Qed.

(** X9.  What an image copy to a volume raises: if the constructor raises,
    the [finally] clause meets an unbound name and that error replaces the
    constructor's, nothing being attached or detached; if detaching
    raises, its exception is the one that leaves, whatever the copy did;
    and the method returns normally only when attaching, the lookups, the
    transfer and detaching all succeeded. *)
Theorem copy_image_errors context volume image_service image_id :
  let out := copy_image_to_volume c blocksize context volume image_service
               image_id in
  (forall e, AttachDetachDiscoVolume c = Raise e ->
     out = (Some (UnboundLocalError "attach_detach_volume"), [])) /\
  (forall e, AttachDetachDiscoVolume c = Ok tt ->
     _detach_volume c volume = Raise e -> fst out = Some (Exn e)) /\
  (fst out = None <->
   AttachDetachDiscoVolume c = Ok tt /\
   exists device_info path size,
     _attach_volume c volume = Ok device_info /\
     getitem device_info "path" = Ok path /\
     getitem volume "size" = Ok size /\
     fetch_to_raw c context image_service image_id path blocksize size = Ok tt /\
     _detach_volume c volume = Ok tt).
Proof.
  intros out. unfold out, copy_image_to_volume, finally_detach.
  split; [ | split].
  - intros e ->. reflexivity.
  - intros e -> Hd. rewrite Hd.
    destruct (_attach_volume c volume) as [device_info | e']; [ | reflexivity].
    unfold mbind, res_bind, mret, res_ret.
    destruct (getitem device_info "path"); [ | reflexivity].
    destruct (getitem volume "size"); [ | reflexivity].
    destruct (fetch_to_raw c _ _ _ _ _ _); reflexivity.
  - assert (N : forall (o : option error) (t : list action),
              fst (o, t) = None <-> o = None) by (intros; reflexivity).
    destruct (AttachDetachDiscoVolume c) as [[] | e] eqn:Hn.
    2: { split; [discriminate | intros [[=] _]]. }
    destruct (_attach_volume c volume) as [device_info | e] eqn:Ha.
    2: { destruct (_detach_volume c volume); rewrite N;
           (split; [discriminate | ]);
           intros [_ (d & p & s & H1 & _)]; congruence. }
    unfold mbind, res_bind, mret, res_ret.
    destruct (getitem device_info "path") as [path | e] eqn:Hp.
    2: { destruct (_detach_volume c volume); rewrite N;
           (split; [discriminate | ]);
           intros [_ (d & p & s & H1 & H2 & _)]; congruence. }
    destruct (getitem volume "size") as [size | e] eqn:Hs.
    2: { destruct (_detach_volume c volume); rewrite N;
           (split; [discriminate | ]);
           intros [_ (d & p & s & H1 & H2 & H3 & _)]; congruence. }
    destruct (fetch_to_raw c context image_service image_id path blocksize size)
      as [[] | e] eqn:Hf.
    + destruct (_detach_volume c volume) as [[] | e] eqn:Hd; rewrite N.
      * split; [intros _ | reflexivity]. split; [reflexivity | ].
        exists device_info, path, size. auto.
      * split; [discriminate | ].
        intros [_ (d & p & s & _ & _ & _ & _ & H5)]. congruence.
    + destruct (_detach_volume c volume); rewrite N;
        (split; [discriminate | ]);
        intros [_ (d & p & s & H1 & H2 & H3 & H4 & _)]; congruence.
Qed.

End CopyProperties.

(** *** Volume statistics *)

Section StatsProperties.

Variable F : Type.
Variable float : pyval -> res F.
Variable rt : runtime.
Variable b : backend.

(** The loop writes the two capacities only. *)
Lemma for_info_other_keys items stats k :
  k <> "free_capacity_gb" -> k <> "total_capacity_gb" ->
  snd (for_info F float items stats) !! k = stats !! k.
Proof.
  intros Hf Ht. revert stats. induction items as [ | info rest IH];
    intros stats; simpl; [reflexivity | ].
  destruct (getitem info "name") as [name | e]; [ | reflexivity].
  destruct (eq_str name "freeCapacityGB").
  { destruct (value ← getitem info "value"; float value) as [f | e];
      [ | reflexivity].
    rewrite IH. now apply lookup_insert_ne. }
  destruct (eq_str name "totalCapacityGB"); [ | apply IH].
  destruct (value ← getitem info "value"; float value) as [f | e];
    [ | reflexivity].
  rewrite IH. now apply lookup_insert_ne.
Qed.

(** An entry whose name cannot be read stops the loop, at that entry or
    before. *)
Lemma for_info_unreadable items stats info e :
  info ∈ items -> getitem info "name" = Raise e ->
  exists e', fst (for_info F float items stats) = Raise e'.
Proof.
  intros Hin Hname. revert stats.
  induction items as [ | info' rest IH]; intros stats.
  - now apply elem_of_nil in Hin.
  - simpl. apply elem_of_cons in Hin as [<- | Hin].
    + rewrite Hname. eauto.
    + destruct (getitem info' "name") as [name | e0]; [ | eauto].
      destruct (eq_str name "freeCapacityGB").
      { destruct (value ← getitem info' "value"; float value); eauto. }
      destruct (eq_str name "totalCapacityGB"); [ | eauto].
      destruct (value ← getitem info' "value"; float value); eauto.
Qed.

(** Entries with other names leave the free capacity as it was. *)
Lemma for_info_no_free items stats :
  (forall info name, info ∈ items -> getitem info "name" = Ok name ->
     eq_str name "freeCapacityGB" = false) ->
  snd (for_info F float items stats) !! "free_capacity_gb" =
  stats !! "free_capacity_gb".
Proof.
  revert stats. induction items as [ | info rest IH]; intros stats Hno;
    simpl; [reflexivity | ].
  assert (Hrest : forall info' name, info' ∈ rest ->
            getitem info' "name" = Ok name ->
            eq_str name "freeCapacityGB" = false).
  { intros info' name Hin. apply Hno. now apply list_elem_of_further. }
  destruct (getitem info "name") as [name | e] eqn:Hname; [ | reflexivity].
  rewrite (Hno info name (list_elem_of_here _ _) Hname).
  destruct (eq_str name "totalCapacityGB"); [ | now apply IH].
  destruct (value ← getitem info "value"; float value) as [f | e];
    [ | reflexivity].
  rewrite IH by assumption. now apply lookup_insert_ne.
Qed.

Lemma for_info_last_free pre info post stats value f :
  getitem info "name" = Ok (PStr "freeCapacityGB") ->
  getitem info "value" = Ok value -> float value = Ok f ->
  (forall info' name, info' ∈ post -> getitem info' "name" = Ok name ->
     eq_str name "freeCapacityGB" = false) ->
  fst (for_info F float (pre ++ info :: post) stats) = Ok tt ->
  snd (for_info F float (pre ++ info :: post) stats) !! "free_capacity_gb" =
  Some (Float F f).
Proof.
  intros Hname Hvalue Hf Hpost. revert stats.
  induction pre as [ | info' pre IH]; intros stats; simpl.
  - rewrite Hname. simpl. rewrite Hvalue. simpl. rewrite Hf. intros _.
    rewrite for_info_no_free by assumption. apply lookup_insert_eq.
  - destruct (getitem info' "name") as [name | e]; [ | discriminate].
    destruct (eq_str name "freeCapacityGB").
    { destruct (value' ← getitem info' "value"; float value');
        [apply IH | discriminate]. }
    destruct (eq_str name "totalCapacityGB"); [ | apply IH].
    destruct (value' ← getitem info' "value"; float value');
      [apply IH | discriminate].
Qed.

(** X10.  [_update_volume_stats] never raises: it makes the one call
    [systemInformationList], always reports the six fixed entries, and
    when the call raises or is answered with an error status it reports
    both capacities as the text 'unknown' instead of raising. *)
Theorem stats_hide_backend_errors backend_name log :
  let out := _update_volume_stats F float rt b backend_name log in
  snd out = systemInformationList :: log /\
  fst out !! "volume_backend_name" =
    Some (Val F (if truthy backend_name then backend_name else PStr "disco")) /\
  fst out !! "storage_protocol" = Some (Val F (PStr "disco")) /\
  fst out !! "driver_version" = Some (Val F (PStr "1.1")) /\
  fst out !! "reserved_percentage" = Some (Val F (PInt 0)) /\
  fst out !! "vendor_name" = Some (Val F (PStr "ITRI")) /\
  fst out !! "QoS_support" = Some (Val F (PBool false)) /\
  ((exists e, answer b (length log) systemInformationList = Raise e) \/
   (exists reply status,
      answer b (length log) systemInformationList = Ok reply /\
      getitem reply "status" = Ok status /\ truthy status = true) ->
   fst out !! "free_capacity_gb" = Some (Val F (PStr "unknown")) /\
   fst out !! "total_capacity_gb" = Some (Val F (PStr "unknown"))).
Proof.
  intros out. unfold out, _update_volume_stats.
  set (stats := <["QoS_support" := _]> _).
  set (attempt := match answer b (length log) systemInformationList with
                  | Ok _ => _ | Raise _ => _ end).
  assert (K : forall k v, k <> "free_capacity_gb" -> k <> "total_capacity_gb" ->
            stats !! k = Some v ->
            fst (match attempt with
                 | (Ok _, stats') => (stats', systemInformationList :: log)
                 | (Raise _, stats') =>
                     (<["free_capacity_gb" := Val F (PStr "unknown")]>
                        (<["total_capacity_gb" := Val F (PStr "unknown")]> stats'),
                      systemInformationList :: log)
                 end) !! k = Some v).
  { intros k v Hf Ht Hk.
    assert (A : snd attempt !! k = Some v).
    { unfold attempt.
      destruct (answer b (length log) systemInformationList) as [reply | e];
        [ | exact Hk].
      destruct (getitem reply "status") as [status | e]; [ | exact Hk].
      destruct (truthy status); [exact Hk | ].
      destruct (properties ← getitem reply "propertyListResult";
                info_list ← getitem properties "PropertyInfoList";
                iter info_list) as [items | e]; [ | exact Hk].
      now rewrite for_info_other_keys. }
    destruct attempt as [[[] | e] stats']; simpl in *; [exact A | ].
    now rewrite !lookup_insert_ne by congruence. }
  split.
  { destruct attempt as [[[] | e] stats']; reflexivity. }
  repeat (split; [apply K; [discriminate | discriminate | reflexivity] | ]).
  intros H.
  assert (A : exists e stats', attempt = (Raise e, stats')).
  { unfold attempt. destruct H as [[e ->] | (reply & status & -> & -> & ->)];
      eauto. }
  destruct A as (e & stats' & ->). simpl. split.
  - apply lookup_insert_eq.
  - rewrite lookup_insert_ne by discriminate. apply lookup_insert_eq.
Qed.

(** X11.  With the call accepted and the property list a sequence: an
    empty list leaves both capacities out of the statistics; an entry
    whose name cannot be read, anywhere in the list, makes both capacities
    'unknown', whatever was read before it; and when the loop completes,
    the free capacity is the float of the last entry named
    [freeCapacityGB]. *)
Theorem stats_capacities_from_the_list backend_name log reply status
    properties items :
  answer b (length log) systemInformationList = Ok reply ->
  getitem reply "status" = Ok status -> truthy status = false ->
  getitem reply "propertyListResult" = Ok properties ->
  getitem properties "PropertyInfoList" = Ok (PTuple items) ->
  let stats := fst (_update_volume_stats F float rt b backend_name log) in
  (items = [] ->
   stats !! "free_capacity_gb" = None /\
   stats !! "total_capacity_gb" = None) /\
  (forall info e, info ∈ items -> getitem info "name" = Raise e ->
   stats !! "free_capacity_gb" = Some (Val F (PStr "unknown")) /\
   stats !! "total_capacity_gb" = Some (Val F (PStr "unknown"))) /\
  (forall pre info post value f,
     items = (pre ++ info :: post)%list ->
     getitem info "name" = Ok (PStr "freeCapacityGB") ->
     getitem info "value" = Ok value -> float value = Ok f ->
     (forall info' name, info' ∈ post -> getitem info' "name" = Ok name ->
        eq_str name "freeCapacityGB" = false) ->
     (forall s, fst (for_info F float items s) = Ok tt) ->
     stats !! "free_capacity_gb" = Some (Float F f)).
Proof.
  intros Hans Hs Ht Hp Hl stats. unfold stats, _update_volume_stats.
  rewrite Hans, Hs, Ht, Hp. simpl. rewrite Hl. simpl.
  set (stats0 := <["QoS_support" := _]> _).
  split; [ | split].
  - intros ->. simpl. split; reflexivity.
  - intros info e Hin Hname.
    destruct (for_info_unreadable items stats0 info e Hin Hname) as [e' He'].
    destruct (for_info F float items stats0) as [r stats']. simpl in He'.
    subst r. simpl. split.
    + apply lookup_insert_eq.
    + rewrite lookup_insert_ne by discriminate. apply lookup_insert_eq.
  - intros pre info post value f -> Hname Hvalue Hf Hpost Hdone.
    assert (L := for_info_last_free pre info post stats0 value f Hname Hvalue
                   Hf Hpost (Hdone stats0)).
    specialize (Hdone stats0).
    destruct (for_info F float (pre ++ info :: post) stats0) as [r stats'].
    simpl in *. subst r. exact L.
Qed.

End StatsProperties.

(** *** Operations that wait for the backend *)

Section Waiting.

Variable rt : runtime.
Variable cfg : configuration.
Variable b : backend.

(** [monitor] is [_monitor_request] seen from the driver. *)
Lemma monitor_polling n check timeout log calls :
  _monitor_request rt (monitor_world b (length log)) check timeout n [] =
    Polling calls ->
  monitor rt b n check timeout log = Waiting (map detail calls ++ log).
Proof. intros H. unfold monitor. now rewrite H. Qed.

Lemma monitor_raises n check timeout log e calls :
  _monitor_request rt (monitor_world b (length log)) check timeout n [] =
    Done (Raise e) calls ->
  monitor rt b n check timeout log = Raises e (map detail calls ++ log).
Proof. intros H. unfold monitor. now rewrite H. Qed.

Lemma monitor_returns n check timeout log v calls :
  _monitor_request rt (monitor_world b (length log)) check timeout n [] =
    Done (Ok v) calls ->
  monitor rt b n check timeout log = Returns v (map detail calls ++ log).
Proof. intros H. unfold monitor. now rewrite H. Qed.

(** X12.  [create_snapshot] on a snapshot whose volume is found.  If
    [snapshotCreate] is answered with an error status the method raises
    after that one call, without polling.  Otherwise it polls
    [snapshotDetail(int(result))] with the start time read after the call:
    while the monitor polls or when it raises, the method does the same
    and the snapshot object is as it was; when the monitor returns, the
    snapshot object holds the result as given (not the integer) under
    [provider_location], also if the volume then has no [name] for the log
    line, and otherwise a dictionary with that result is returned. *)
Theorem create_snapshot_follows_its_monitor n fields volume_id volume
    description vol_id reply status result log :
  fields !! "volume_id" = Some volume_id ->
  volume_get b volume_id = Ok volume ->
  fields !! "display_description" = Some description ->
  getitem volume "provider_location" = Ok vol_id ->
  let start := snapshotCreate vol_id (PInt (-1)) (PInt (-1)) description in
  answer b (length log) start = Ok reply ->
  getitem reply "status" = Ok status ->
  getitem reply "result" = Ok result ->
  let snapshot := PDict fields in
  let marked := PDict (<["provider_location" := result]> fields) in
  let run := create_snapshot rt cfg b n snapshot log in
  (truthy status = true ->
   run = (Raises (VolumeBackendAPIException (PStr
            (status_result_msg rt "Error while creating snapshot [status] "
               " - [result] " "." status result))) (start :: log),
          snapshot)) /\
  (truthy status = false ->
   forall snapshot_id, int rt result = Ok snapshot_id ->
   let check :=
     {| start_time := clock b (S (length log));
        function := "snapshot_detail";
        param := PDict {[ "snapshot_id" := PInt snapshot_id ]} |} in
   let polled :=
     _monitor_request rt (monitor_world b (S (length log))) check
       (snapshot_check_timeout cfg) n [] in
   (forall calls, polled = Polling calls ->
      run = (Waiting (map detail calls ++ start :: log), snapshot)) /\
   (forall e calls, polled = Done (Raise e) calls ->
      run = (Raises e (map detail calls ++ start :: log), snapshot)) /\
   (forall v calls, polled = Done (Ok v) calls ->
      (forall name, getitem volume "name" = Ok name ->
         run = (Returns (PDict {[ "provider_location" := result ]})
                  (map detail calls ++ start :: log), marked)) /\
      (forall e, getitem volume "name" = Raise e ->
         run = (Raises e (map detail calls ++ start :: log), marked)))).
Proof.
  intros Hid Hvol Hdesc Hloc start Hans Hs Hr snapshot marked run.
  assert (Hsend : send b start log =
                  Returns reply (start :: log)).
  { unfold send. now rewrite Hans. }
  unfold run, create_snapshot, snapshot, mbind, D_bind, eval. simpl getitem.
  rewrite Hid, Hvol, Hdesc, Hloc. fold start. rewrite Hsend, Hs, Hr.
  split.
  - intros Ht. rewrite Ht. reflexivity.
  - intros Ht snapshot_id Hint. rewrite Ht, Hint.
    unfold time. simpl length.
    split; [ | split].
    + intros calls Hp.
      now rewrite (monitor_polling n _ _ (start :: log) calls Hp).
    + intros e calls Hp.
      now rewrite (monitor_raises n _ _ (start :: log) e calls Hp).
    + intros v calls Hp.
      rewrite (monitor_returns n _ _ (start :: log) v calls Hp).
      unfold mret, D_ret. simpl setitem. split.
      * intros name Hn. now rewrite Hn.
      * intros e Hn. now rewrite Hn.
Qed.

(** X13.  [create_volume_from_snapshot] with [restoreFromSnapshot]
    accepted and its result read by [int].  While the monitor polls or
    when it raises, the method does the same and [volumeDetailByName] is
    not called.  When the monitor returns, the volume is looked up by name
    once, and the volume id is read from the reply before its status is
    looked at: a reply without [volumeInfoResult] raises the [KeyError]
    even when its status is an error, a reply with a volume id and an error
    status raises the backend error quoting the result of the restore, and
    otherwise the volume id is returned. *)
Theorem restore_follows_its_monitor n volume snapshot volume_id snap_id
    vol_name reply status result restore_id log :
  getitem volume "id" = Ok volume_id ->
  getitem snapshot "provider_location" = Ok snap_id ->
  join (volume_name_prefix cfg) volume_id = Ok vol_name ->
  let start :=
    restoreFromSnapshot snap_id (PStr vol_name) (PInt (-1)) PNone (PInt (-1)) in
  answer b (length log) start = Ok reply ->
  getitem reply "status" = Ok status -> truthy status = false ->
  getitem reply "result" = Ok result -> int rt result = Ok restore_id ->
  let check :=
    {| start_time := clock b (S (length log));
       function := "restore_detail";
       param := PDict {[ "restore_id" := PInt restore_id ]} |} in
  let polled :=
    _monitor_request rt (monitor_world b (S (length log))) check
      (restore_check_timeout cfg) n [] in
  let run := create_volume_from_snapshot rt cfg b n volume snapshot log in
  let lookup := volumeDetailByName (PStr vol_name) in
  (forall calls, polled = Polling calls ->
     run = Waiting (map detail calls ++ start :: log)) /\
  (forall e calls, polled = Done (Raise e) calls ->
     run = Raises e (map detail calls ++ start :: log)) /\
  (forall v calls reply' status',
     polled = Done (Ok v) calls ->
     let log' := (map detail calls ++ start :: log)%list in
     answer b (length log') lookup = Ok reply' ->
     getitem reply' "status" = Ok status' ->
     (forall e, getitem reply' "volumeInfoResult" = Raise e ->
        run = Raises e (lookup :: log')) /\
     (forall info new_vol_id,
        getitem reply' "volumeInfoResult" = Ok info ->
        getitem info "volumeId" = Ok new_vol_id ->
        run =
        if truthy status' then
          Raises (VolumeBackendAPIException (PStr
            (status_result_msg rt "Error[status] " " - [result] "
               "] while getting volume id." status' result))) (lookup :: log')
        else
          Returns (PDict {[ "provider_location" := new_vol_id ]})
            (lookup :: log'))).
Proof.
  intros Hid Hsnap Hname start Hans Hs Ht Hr Hint check polled run lookup.
  assert (Hsend : send b start log = Returns reply (start :: log)).
  { unfold send. now rewrite Hans. }
  unfold run, create_volume_from_snapshot, mbind, D_bind, eval.
  rewrite Hid, Hsnap, Hname. fold start. rewrite Hsend, Hs, Hr, Ht, Hint.
  unfold time. simpl length. fold check.
  split; [ | split].
  - intros calls Hp.
    now rewrite (monitor_polling n check _ (start :: log) calls Hp).
  - intros e calls Hp.
    now rewrite (monitor_raises n check _ (start :: log) e calls Hp).
  - intros v calls reply' status' Hp.
    rewrite (monitor_returns n check _ (start :: log) v calls Hp).
    set (log' := (map detail calls ++ start :: log)%list).
    intros Hans' Hs'. fold lookup.
    assert (Hsend' : send b lookup log' = Returns reply' (lookup :: log')).
    { unfold send. now rewrite Hans'. }
    rewrite Hsend', Hs'. split.
    + intros e He. now rewrite He.
    + intros info new_vol_id Hi Hv. rewrite Hi, Hv.
      destruct (truthy status'); reflexivity.
Qed.

(** X14.  [create_cloned_volume] with [volumeClone] accepted and its
    result read by [int]: it polls [cloneDetail] for that integer and the
    volume name; while the monitor polls or when it raises, the method does
    the same without looking the volume up.  When the monitor returns, the
    volume id is read from the reply of [volumeDetailByName] before its
    status is looked at, and an error status raises the pair of the
    unapplied format and its values. *)
Theorem clone_follows_its_monitor n volume src_vref src_id volume_id
    vol_name size vol_size src_vol_id reply status result clone_id log :
  getitem src_vref "id" = Ok src_id ->
  getitem volume "id" = Ok volume_id ->
  join (volume_name_prefix cfg) volume_id = Ok vol_name ->
  getitem volume "size" = Ok size -> mul size Ki = Ok vol_size ->
  getitem src_vref "provider_location" = Ok src_vol_id ->
  let start := volumeClone src_vol_id (PStr vol_name) in
  answer b (length log) start = Ok reply ->
  getitem reply "status" = Ok status -> truthy status = false ->
  getitem reply "result" = Ok result -> int rt result = Ok clone_id ->
  let check :=
    {| start_time := clock b (S (length log));
       function := "clone_detail";
       param := PDict {[ "clone_id" := PInt clone_id;
                         "vol_name" := PStr vol_name ]} |} in
  let polled :=
    _monitor_request rt (monitor_world b (S (length log))) check
      (clone_check_timeout cfg) n [] in
  let run := create_cloned_volume rt cfg b n volume src_vref log in
  let lookup := volumeDetailByName (PStr vol_name) in
  (forall calls, polled = Polling calls ->
     run = Waiting (map detail calls ++ start :: log)) /\
  (forall e calls, polled = Done (Raise e) calls ->
     run = Raises e (map detail calls ++ start :: log)) /\
  (forall v calls reply' status',
     polled = Done (Ok v) calls ->
     let log' := (map detail calls ++ start :: log)%list in
     answer b (length log') lookup = Ok reply' ->
     getitem reply' "status" = Ok status' ->
     (forall e, getitem reply' "volumeInfoResult" = Raise e ->
        run = Raises e (lookup :: log')) /\
     (forall info new_vol_id,
        getitem reply' "volumeInfoResult" = Ok info ->
        getitem info "volumeId" = Ok new_vol_id ->
        run =
        if truthy status' then
          Raises (VolumeBackendAPIException (PTuple
            [PStr "Error[%(stat)s - %(res)s] while getting volume id.";
             PDict {[ "stat" := PStr (text_type rt status');
                      "res" := result ]}])) (lookup :: log')
        else
          Returns (PDict {[ "provider_location" := new_vol_id ]})
            (lookup :: log'))).
Proof.
  intros Hsrc Hid Hname Hsize Hmul Hloc start Hans Hs Ht Hr Hint check polled
    run lookup.
  assert (Hsend : send b start log = Returns reply (start :: log)).
  { unfold send. now rewrite Hans. }
  unfold run, create_cloned_volume, mbind, D_bind, eval.
  rewrite Hsrc, Hid, Hname, Hsize, Hmul, Hloc. fold start.
  rewrite Hsend, Hs, Hr, Ht, Hint.
  unfold time. simpl length. fold check.
  split; [ | split].
  - intros calls Hp.
    now rewrite (monitor_polling n check _ (start :: log) calls Hp).
  - intros e calls Hp.
    now rewrite (monitor_raises n check _ (start :: log) e calls Hp).
  - intros v calls reply' status' Hp.
    rewrite (monitor_returns n check _ (start :: log) v calls Hp).
    set (log' := (map detail calls ++ start :: log)%list).
    intros Hans' Hs'. fold lookup.
    assert (Hsend' : send b lookup log' = Returns reply' (lookup :: log')).
    { unfold send. now rewrite Hans'. }
    rewrite Hsend', Hs'. split.
    + intros e He. now rewrite He.
    + intros info new_vol_id Hi Hv. rewrite Hi, Hv.
      destruct (truthy status'); reflexivity.
Qed.

End Waiting.

(** *** From the first call to the last *)

Section EndToEnd.

Variable rt : runtime.
Variable cfg : configuration.
Variable b : backend.

(** A timer whose query is the request [rq], answered Ongoing within the
    deadline [m] times. *)
Lemma timer_polls_request w self timeout rq m calls0 :
  (forall c, _call_api w (function self) (param self) c = call w rq c) ->
  (forall k, (k < m)%nat ->
     exists reply,
       client w (length calls0 + k) rq = Ok reply /\
       reads rt (function self) reply 2 = true /\
       time_time w (S (length calls0 + k)) - start_time self <= timeout) ->
  timer rt w self timeout m calls0 = Polling (replicate m rq ++ calls0).
Proof.
  intros Hb. revert calls0. induction m as [ | m IH]; intros calls0 Hong.
  - reflexivity.
  - destruct (Hong 0%nat ltac:(lia)) as (reply & Ha & Hr & Hc).
    rewrite Nat.add_0_r in Ha, Hc.
    assert (Hcall : _call_api w (function self) (param self) calls0 =
                    (Ok reply, rq :: calls0)).
    { rewrite Hb. unfold call. now rewrite Ha. }
    unfold timer in *. rewrite (wait_continue _ m calls0 (rq :: calls0)).
    + rewrite IH.
      * f_equal.
        change (replicate (S m) rq ++ calls0)%list
          with ((rq :: replicate m rq) ++ calls0)%list.
        rewrite replicate_cons_app, <- app_assoc. reflexivity.
      * intros k Hk.
        destruct (Hong (S k) ltac:(lia)) as (reply' & Ha' & Hr' & Hc').
        exists reply'. simpl length.
        replace (S (length calls0) + k)%nat with (length calls0 + S k)%nat
          by lia.
        auto.
    + now apply retry_ongoing_in_time with (reply := reply).
Qed.

Lemma restore_query w restore_id c :
  _call_api w "restore_detail" (PDict {[ "restore_id" := PInt restore_id ]}) c
  = call w (restoreDetail (PInt restore_id)) c.
Proof. reflexivity. Qed.

(** X15.  A restore from the first call to the last.  With
    [restoreFromSnapshot] accepted, the status query for the integer of
    its result answered Ongoing [m] times within the deadline and then
    Success, and the volume found by name with a good status,
    [create_volume_from_snapshot] returns the id of the volume found after
    exactly [m + 3] calls: the restore, [m + 1] identical status queries,
    and one look-up. *)
Theorem restore_from_first_call_to_last n m volume snapshot volume_id snap_id
    vol_name reply status result restore_id r reply' status' info new_vol_id
    log :
  getitem volume "id" = Ok volume_id ->
  getitem snapshot "provider_location" = Ok snap_id ->
  join (volume_name_prefix cfg) volume_id = Ok vol_name ->
  let start :=
    restoreFromSnapshot snap_id (PStr vol_name) (PInt (-1)) PNone (PInt (-1)) in
  let query := restoreDetail (PInt restore_id) in
  let lookup := volumeDetailByName (PStr vol_name) in
  let k0 := S (length log) in
  answer b (length log) start = Ok reply ->
  getitem reply "status" = Ok status -> truthy status = false ->
  getitem reply "result" = Ok result -> int rt result = Ok restore_id ->
  (forall k, (k < m)%nat ->
     exists reply_k,
       answer b (k0 + k) (detail query) = Ok reply_k /\
       reads rt "restore_detail" reply_k 2 = true /\
       clock b (k0 + S k) - clock b k0 <= restore_check_timeout cfg) ->
  answer b (k0 + m) (detail query) = Ok r ->
  reads rt "restore_detail" r 1 = true ->
  answer b (k0 + S m) lookup = Ok reply' ->
  getitem reply' "status" = Ok status' -> truthy status' = false ->
  getitem reply' "volumeInfoResult" = Ok info ->
  getitem info "volumeId" = Ok new_vol_id ->
  (m < n)%nat ->
  create_volume_from_snapshot rt cfg b n volume snapshot log =
  Returns (PDict {[ "provider_location" := new_vol_id ]})
    (lookup :: replicate (S m) (detail query) ++ start :: log).
Proof.
  intros Hid Hsnap Hname start query lookup k0 Hans Hs Ht Hr Hint Hong Hlast
    Hsucc Hans' Hs' Ht' Hinfo Hvol Hn.
  set (w := monitor_world b k0).
  set (check := {| start_time := clock b k0; function := "restore_detail";
                   param := PDict {[ "restore_id" := PInt restore_id ]} |}).
  assert (Hpoll : timer rt w check (restore_check_timeout cfg) m [] =
                  Polling (replicate m query ++ [])).
  { apply timer_polls_request.
    - intros c. apply restore_query.
    - intros k Hk. destruct (Hong k Hk) as (reply_k & Ha & Hrk & Hc).
      exists reply_k. split; [exact Ha | ]. split; [exact Hrk | exact Hc]. }
  rewrite app_nil_r in Hpoll.
  assert (Hdone : _monitor_request rt w check (restore_check_timeout cfg) n []
                  = Done (Ok PNone) (replicate (S m) query)).
  { apply monitor_of_timer_value with (v := r).
    apply timer_stable with (n := (m + 1)%nat); [ | lia].
    unfold timer in *. rewrite wait_split, Hpoll. apply wait_done.
    assert (Hcall : _call_api w "restore_detail"
                      (PDict {[ "restore_id" := PInt restore_id ]})
                      (replicate m query) =
                    (Ok r, query :: replicate m query)).
    { rewrite restore_query. unfold call. rewrite length_replicate.
      assert (E : client w m query = Ok r) by exact Hlast.
      unfold query in E |- *. now rewrite E. }
    apply retry_success; [exact Hcall | exact Hsucc]. }
  assert (Hsend : send b start log = Returns reply (start :: log)).
  { unfold send. now rewrite Hans. }
  unfold create_volume_from_snapshot, mbind, D_bind, eval.
  rewrite Hid, Hsnap, Hname. fold start. rewrite Hsend, Hs, Hr, Ht, Hint.
  unfold time. simpl length. fold k0. fold check.
  rewrite (monitor_returns rt b n check _ (start :: log) PNone _ Hdone).
  rewrite fmap_replicate. fold lookup.
  assert (Hsend' :
    send b lookup (replicate (S m) (detail query) ++ start :: log)%list =
    Returns reply'
      (lookup :: replicate (S m) (detail query) ++ start :: log)%list).
  { unfold send. rewrite length_app, length_replicate. simpl length.
    replace (S m + S (length log))%nat with (k0 + S m)%nat by (unfold k0; lia).
    now rewrite Hans'. }
  rewrite Hsend', Hs', Hinfo, Hvol, Ht'. reflexivity.
Qed.

End EndToEnd.

(** *** Operations of one call *)

Section OneCall.

Variable rt : runtime.
Variable cfg : configuration.
Variable b : backend.

(** X16.  [create_volume] for a volume with a text id and an integer size
    makes the one call [volumeCreate] with the prefixed id and the size
    times 1024.  An error status raises the backend error; otherwise the
    result is returned as [provider_location], unless the volume has no
    [name] for the closing log line, which raises after the backend has
    created the volume.  An id that is not a text raises [TypeError]
    before any call. *)
Theorem create_volume_one_call volume log :
  (forall id size reply status result,
     getitem volume "id" = Ok (PStr id) ->
     getitem volume "size" = Ok (PInt size) ->
     let request :=
       volumeCreate (PStr (volume_name_prefix cfg +:+ id))
         (PInt (size * 1024)) in
     answer b (length log) request = Ok reply ->
     getitem reply "status" = Ok status ->
     getitem reply "result" = Ok result ->
     create_volume rt cfg b volume log =
     if truthy status then
       Raises (VolumeBackendAPIException (PStr
         (status_result_msg rt "Error while creating volume [status] "
            " - [result] " "." status result))) (request :: log)
     else
       match getitem volume "name" with
       | Ok _ =>
           Returns (PDict {[ "provider_location" := result ]}) (request :: log)
       | Raise e => Raises e (request :: log)
       end) /\
  (forall id, getitem volume "id" = Ok id ->
     (forall s, id <> PStr s) ->
     create_volume rt cfg b volume log = Raises TypeError log).
Proof.
  split.
  - intros id size reply status result Hid Hsize request Hans Hs Hr.
    unfold create_volume, mbind, D_bind, eval.
    rewrite Hid. simpl join. rewrite Hsize. simpl mul. unfold Ki.
    fold request. unfold send. rewrite Hans, Hs, Hr.
    destruct (truthy status); [reflexivity | ].
    destruct (getitem volume "name"); reflexivity.
  - intros id Hid Hne. unfold create_volume, mbind, D_bind, eval.
    rewrite Hid. destruct id as [ | | | s | | ]; try reflexivity.
    now destruct (Hne s).
Qed.

(** X17.  The deletions and the extension make one call each.
    [delete_volume] accepted by the backend still raises if the volume has
    no [name]; [delete_snapshot] returns [None] when accepted;
    [extend_volume] sends the new size times 1024 and, on an error status,
    raises the pair of the unapplied format and its values; a new size of
    [None] raises [TypeError] before any call. *)
Theorem deletions_and_extension log :
  (forall volume vol_id reply status result,
     getitem volume "provider_location" = Ok vol_id ->
     answer b (length log) (volumeDelete vol_id) = Ok reply ->
     getitem reply "status" = Ok status ->
     getitem reply "result" = Ok result -> truthy status = false ->
     delete_volume rt b volume log =
     match getitem volume "name" with
     | Ok _ => Returns PNone (volumeDelete vol_id :: log)
     | Raise e => Raises e (volumeDelete vol_id :: log)
     end) /\
  (forall snapshot snap_id reply status result,
     getitem snapshot "provider_location" = Ok snap_id ->
     answer b (length log) (snapshotDelete snap_id) = Ok reply ->
     getitem reply "status" = Ok status ->
     getitem reply "result" = Ok result ->
     delete_snapshot rt b snapshot log =
     if truthy status then
       Raises (VolumeBackendAPIException (PStr
         (status_result_msg rt "Error while deleting snapshot [status] "
            " - [result] " "" status result))) (snapshotDelete snap_id :: log)
     else Returns PNone (snapshotDelete snap_id :: log)) /\
  (forall volume vol_id new_size reply status result,
     getitem volume "provider_location" = Ok vol_id ->
     let request := volumeExtend vol_id (PInt (new_size * 1024)) in
     answer b (length log) request = Ok reply ->
     getitem reply "status" = Ok status ->
     getitem reply "result" = Ok result ->
     extend_volume rt b volume (PInt new_size) log =
     if truthy status then
       Raises (VolumeBackendAPIException (PTuple
         [PStr "Error while extending volume [status] %(stat)s - [result] %(res)s.";
          PDict {[ "stat" := PStr (text_type rt status); "res" := result ]}]))
         (request :: log)
     else Returns PNone (request :: log)) /\
  (forall volume vol_id,
     getitem volume "provider_location" = Ok vol_id ->
     extend_volume rt b volume PNone log = Raises TypeError log).
Proof.
  split; [ | split; [ | split]].
  - intros volume vol_id reply status result Hloc Hans Hs Hr Ht.
    unfold delete_volume, mbind, D_bind, eval, send.
    rewrite Hloc, Hans, Hs, Hr, Ht.
    destruct (getitem volume "name"); reflexivity.
  - intros snapshot snap_id reply status result Hloc Hans Hs Hr.
    unfold delete_snapshot, mbind, D_bind, eval, send.
    rewrite Hloc, Hans, Hs, Hr. destruct (truthy status); reflexivity.
  - intros volume vol_id new_size reply status result Hloc request Hans Hs Hr.
    unfold extend_volume, mbind, D_bind, eval, send.
    rewrite Hloc. simpl mul. unfold Ki. fold request. rewrite Hans, Hs, Hr.
    destruct (truthy status); reflexivity.
  - intros volume vol_id Hloc. unfold extend_volume, mbind, D_bind, eval.
    now rewrite Hloc.
Qed.

End OneCall.

(** *** The further properties at work *)

Lemma missing_parameter_raises_before_any_call_witness :
  let fields : gmap string pyval := {[ "clone_id" := PInt 9 ]} in
  (1 <= 1)%nat /\
  fields !! "snapshot_id" = None /\
  fields !! "vol_name" = None /\
  _monitor_request scalars two_then_success
    {| start_time := 1000; function := "snapshot_detail";
       param := PDict fields |} 3600 1 [] =
    Done (Raise (KeyError "snapshot_id")) [] /\
  _monitor_request scalars two_then_success
    {| start_time := 1000; function := "clone_detail";
       param := PDict fields |} 3600 1 [] =
    Done (Raise (KeyError "vol_name")) [].
Proof.
  intros fields.
  destruct (missing_parameter_raises_before_any_call scalars two_then_success
              1000 3600 fields 1 (le_n 1)) as (Hs & _ & _ & Hv).
  assert (H1 : fields !! "snapshot_id" = None) by (vm_compute; reflexivity).
  assert (H2 : fields !! "vol_name" = None) by (vm_compute; reflexivity).
  split; [lia | ]. split; [exact H1 | ]. split; [exact H2 | ].
  split; [exact (Hs H1) | ].
  apply (Hv H2). exists (PInt 9). vm_compute; reflexivity.
Defined.

Lemma monitor_repeats_one_query_witness :
  let calls :=
    [snapshotDetail (PInt 7); snapshotDetail (PInt 7); snapshotDetail (PInt 7)]
  in
  _monitor_request scalars two_then_success snapshot_check 3600 5 [] =
    Done (Ok PNone) calls /\
  (length calls <= 5)%nat /\
  (forall rq rq', rq ∈ calls -> rq' ∈ calls -> rq = rq').
Proof.
  intros calls.
  assert (E : _monitor_request scalars two_then_success snapshot_check 3600 5 []
              = Done (Ok PNone) calls) by (vm_compute; reflexivity).
  destruct (monitor_repeats_one_query scalars two_then_success snapshot_check
              3600 5 calls) as (Hlen & _ & _ & Hsame).
  { right. exists (Ok PNone). exact E. }
  split; [exact E | ]. split; [exact Hlen | exact Hsame].
Defined.

Lemma deadline_bounds_polling_witness :
  let w := always (restore_reply 0 2) ticking in
  time_time w 3 - start_time restore_check > 2 /\
  exists r calls,
    (length calls <= 3)%nat /\
    forall m, (3 <= m)%nat ->
      _monitor_request scalars w restore_check 2 m [] = Done r calls.
Proof.
  intros w.
  assert (H : time_time w 3 - start_time restore_check > 2)
    by (vm_compute; reflexivity).
  split; [exact H | ].
  exact (deadline_bounds_polling scalars w restore_check 2 2 H).
Defined.

Lemma text_status_resolves_a_clone_only_witness :
  let clone : gmap string pyval :=
    {[ "status" := PInt 0; "result" := PStr "1" ]} in
  let snapshot : gmap string pyval :=
    {[ "status" := PInt 0;
       "snapshotInfoResult" := PDict {[ "status" := PStr "1" ]} ]} in
  int_of_str scalars "1" = Some 1 /\
  reads scalars "clone_detail" (PDict clone) 1 = true /\
  (forall c, reads scalars "snapshot_detail" (PDict snapshot) c = false).
Proof.
  intros clone snapshot.
  assert (Hint : int_of_str scalars "1" = Some 1) by reflexivity.
  split; [exact Hint | ]. split.
  - apply (proj1 (text_status_resolves_a_clone_only scalars two_then_success
                    clone (PInt 0) "1" eq_refl eq_refl));
      [vm_compute; reflexivity | exact Hint].
  - apply (proj2 (text_status_resolves_a_clone_only scalars two_then_success
                    snapshot (PInt 0) "1" eq_refl eq_refl)
             "snapshot_detail" {[ "status" := PStr "1" ]} 1000 3600
             (param snapshot_check) [] (snapshotDetail (PInt 7))).
    + left. split; [reflexivity | vm_compute; reflexivity].
    + vm_compute; reflexivity.
Defined.

Lemma unreadable_reply_aborts_with_lookup_error_witness :
  let fields : gmap string pyval := {[ "result" := PInt 1 ]} in
  let w := scripted [PDict fields] ticking in
  answered w "clone_detail" (param clone_check) 0 (PDict fields) /\
  fields !! "status" = None /\
  exists calls, length calls = 1%nat /\
    forall n, (1 <= n)%nat ->
      _monitor_request scalars w clone_check 3600 n [] =
      Done (Raise (KeyError "status")) calls.
Proof.
  intros fields w.
  assert (A : answered w (function clone_check) (param clone_check) 0
                (PDict fields)).
  { apply (scripted_answered [PDict fields] ticking "clone_detail"
             (param clone_check) (cloneDetail (PInt 9) (PStr "openstack-v1")) 0).
    intros; reflexivity. }
  assert (H : fields !! "status" = None) by (vm_compute; reflexivity).
  split; [exact A | ]. split; [exact H | ].
  exact (proj1 (unreadable_reply_aborts_with_lookup_error scalars w clone_check
                  3600 fields A) H).
Defined.

Lemma polls_until_the_first_terminal_reply_witness :
  let w := scripted [clone_reply 0 2; clone_reply 0 2; clone_reply 0 2;
                     clone_reply 0 1] ticking in
  (forall k, (k < 3)%nat ->
     exists reply,
       answered w "clone_detail" (param clone_check) k reply /\
       reads scalars "clone_detail" reply 2 = true /\
       time_time w (S k) - 1000 <= 3600) /\
  answered w "clone_detail" (param clone_check) 3 (clone_reply 0 1) /\
  reads scalars "clone_detail" (clone_reply 0 1) 1 = true /\
  exists calls, length calls = 4%nat /\
    forall n, (3 < n)%nat ->
      timer scalars w clone_check 3600 n [] = Done (Ok (clone_reply 0 1)) calls /\
      _monitor_request scalars w clone_check 3600 n [] = Done (Ok PNone) calls.
Proof.
  intros w.
  assert (A : forall k, answered w (function clone_check) (param clone_check) k
                (default PNone
                   ([clone_reply 0 2; clone_reply 0 2; clone_reply 0 2;
                     clone_reply 0 1] !! k))).
  { intros k. apply scripted_answered
      with (rq := cloneDetail (PInt 9) (PStr "openstack-v1")).
    intros; reflexivity. }
  assert (Hong : forall k, (k < 3)%nat ->
            exists reply,
              answered w (function clone_check) (param clone_check) k reply /\
              reads scalars (function clone_check) reply 2 = true /\
              time_time w (S k) - start_time clone_check <= 3600).
  { intros k Hk. exists (clone_reply 0 2).
    destruct k as [ | [ | [ | k]]]; try lia;
      (split; [apply A | split; [vm_compute; reflexivity
                                | vm_compute; discriminate]]). }
  assert (Hr : reads scalars (function clone_check) (clone_reply 0 1) 1 = true)
    by (vm_compute; reflexivity).
  split; [exact Hong | ]. split; [exact (A 3%nat) | ]. split; [exact Hr | ].
  exact (proj1 (polls_until_the_first_terminal_reply scalars w clone_check 3600
                  3 (clone_reply 0 1) Hong (A 3%nat)) Hr).
Defined.

Lemma setup_needs_the_wsdl_file_witness :
  truthy (PStr "10.0.0.5") = true /\
  check_for_setup_error ascii_lower (fun _ => false) (PStr "10.0.0.5")
    (PStr "REST") "/etc/cinder/DISCOService.wsdl" =
  Some (Exn (VolumeBackendAPIException
               (PStr "Could not find DISCO wsdl file."))).
Proof.
  split; [reflexivity | ].
  exact (proj2 (setup_needs_the_wsdl_file ascii_lower (fun _ => false)
                  (PStr "10.0.0.5") (PStr "REST")
                  "/etc/cinder/DISCOService.wsdl") eq_refl eq_refl).
Defined.

Lemma copies_always_detach_witness :
  AttachDetachDiscoVolume failing_transfer = Ok tt /\
  copy_image_to_volume failing_transfer (PInt 1048576) PNone a_volume PNone
    (PStr "image-1") =
  (Some (Exn ValueError),
   [detach a_volume;
    fetch PNone PNone (PStr "image-1") (PStr "/dev/dms42") (PInt 1048576)
      (PInt 3);
    attach a_volume]) /\
  (snd (copy_volume_to_image failing_transfer PNone a_volume PNone PNone) =
     [detach a_volume; attach a_volume] \/
   exists device_info path,
     _attach_volume failing_transfer a_volume = Ok device_info /\
     getitem device_info "path" = Ok path /\
     snd (copy_volume_to_image failing_transfer PNone a_volume PNone PNone) =
     [detach a_volume; upload PNone PNone PNone path; attach a_volume]).
Proof.
  split; [reflexivity | ]. split; [vm_compute; reflexivity | ].
  exact (proj2 (copies_always_detach failing_transfer (PInt 1048576) PNone
                  a_volume PNone PNone eq_refl)).
Defined.

Lemma copy_image_errors_witness :
  let broken := {|
    AttachDetachDiscoVolume := Raise ValueError;
    _attach_volume := _attach_volume failing_transfer;
    _detach_volume := _detach_volume failing_transfer;
    fetch_to_raw := fetch_to_raw failing_transfer;
    upload_volume := upload_volume failing_transfer |} in
  copy_image_to_volume broken (PInt 1048576) PNone a_volume PNone
    (PStr "image-1") =
  (Some (UnboundLocalError "attach_detach_volume"), []).
Proof.
  intros broken.
  exact (proj1 (copy_image_errors broken (PInt 1048576) PNone a_volume PNone
                  (PStr "image-1")) ValueError eq_refl).
Defined.

Lemma stats_hide_backend_errors_witness :
  let b := scripted_backend [information_reply 5 []] ticking in
  let out := _update_volume_stats Z whole scalars b PNone [] in
  snd out = [systemInformationList] /\
  fst out !! "volume_backend_name" = Some (Val Z (PStr "disco")) /\
  fst out !! "free_capacity_gb" = Some (Val Z (PStr "unknown")) /\
  fst out !! "total_capacity_gb" = Some (Val Z (PStr "unknown")).
Proof.
  intros b out.
  destruct (stats_hide_backend_errors Z whole scalars b PNone [])
    as (Hlog & Hname & _ & _ & _ & _ & _ & Herr).
  split; [exact Hlog | ]. split; [exact Hname | ].
  apply Herr. right. exists (information_reply 5 []), (PInt 5).
  repeat split; vm_compute; reflexivity.
Defined.

Lemma stats_capacities_from_the_list_witness :
  let items := [property "freeCapacityGB" (PStr "12");
                property "totalCapacityGB" (PInt 40)] in
  let b := scripted_backend [information_reply 0 items] ticking in
  answer b 0 systemInformationList = Ok (information_reply 0 items) /\
  (forall s, fst (for_info Z whole items s) = Ok tt) /\
  fst (_update_volume_stats Z whole scalars b PNone []) !! "free_capacity_gb" =
  Some (Float Z 12).
Proof.
  intros items b.
  assert (Hdone : forall s, fst (for_info Z whole items s) = Ok tt)
    by (intros s; reflexivity).
  split; [reflexivity | ]. split; [exact Hdone | ].
  assert (Hpost : forall info name,
            info ∈ [property "totalCapacityGB" (PInt 40)] ->
            getitem info "name" = Ok name ->
            eq_str name "freeCapacityGB" = false).
  { intros info name Hin Hname.
    apply list_elem_of_singleton in Hin as ->.
    vm_compute in Hname. injection Hname as <-. reflexivity. }
  exact (proj2 (proj2
    (stats_capacities_from_the_list Z whole scalars b PNone []
       (information_reply 0 items) (PInt 0)
       (PDict {[ "PropertyInfoList" := PTuple items ]}) items
       eq_refl eq_refl eq_refl eq_refl eq_refl))
    [] (property "freeCapacityGB" (PStr "12"))
    [property "totalCapacityGB" (PInt 40)] (PStr "12") 12
    eq_refl eq_refl eq_refl eq_refl Hpost Hdone).
Defined.

Lemma create_snapshot_follows_its_monitor_witness :
  let b := scripted_backend
             [plain_reply 0 (PStr "77"); snapshot_reply 0 2; snapshot_reply 0 1]
             ticking in
  let start := snapshotCreate (PStr "41") (PInt (-1)) (PInt (-1))
                 (PStr "nightly") in
  let query := detail (snapshotDetail (PInt 77)) in
  answer b 0 start = Ok (plain_reply 0 (PStr "77")) /\
  int scalars (PStr "77") = Ok 77 /\
  create_snapshot scalars defaults b 5 a_snapshot [] =
  (Returns (PDict {[ "provider_location" := PStr "77" ]})
     [query; query; start],
   PDict {[ "volume_id" := PStr "v1"; "display_description" := PStr "nightly";
            "provider_location" := PStr "77" ]}) /\
  create_snapshot scalars defaults b 1 a_snapshot [] =
  (Waiting [query; start], a_snapshot).
Proof.
  intros b start query.
  assert (Hint : int scalars (PStr "77") = Ok 77) by reflexivity.
  split; [reflexivity | ]. split; [exact Hint | ].
  pose (fields := ({[ "volume_id" := PStr "v1";
                      "display_description" := PStr "nightly";
                      "provider_location" := PStr "77" ]}
                   : gmap string pyval)).
  pose (volume := PDict {[ "provider_location" := PStr "41";
                           "name" := PStr "volume-a" ]}).
  pose proof (fun n =>
    proj2 (create_snapshot_follows_its_monitor scalars defaults b n
             fields (PStr "v1") volume
             (PStr "nightly") (PStr "41") (plain_reply 0 (PStr "77"))
             (PInt 0) (PStr "77") []
             ltac:(vm_compute; reflexivity) ltac:(vm_compute; reflexivity)
             ltac:(vm_compute; reflexivity) ltac:(vm_compute; reflexivity)
             ltac:(vm_compute; reflexivity) ltac:(vm_compute; reflexivity)
             ltac:(vm_compute; reflexivity)) eq_refl 77 Hint) as T.
  split.
  - destruct (T 5%nat) as (_ & _ & Hret).
    refine (eq_trans (proj1 (Hret PNone
                    [snapshotDetail (PInt 77); snapshotDetail (PInt 77)]
                    _) (PStr "volume-a") _) _);
      vm_compute; reflexivity.
  - destruct (T 1%nat) as (Hwait & _ & _).
    refine (Hwait [snapshotDetail (PInt 77)] _). vm_compute; reflexivity.
Defined.

Lemma restore_follows_its_monitor_witness :
  let b := scripted_backend
             [plain_reply 0 (PStr "5"); restore_reply 0 1;
              plain_reply 3 PNone] ticking in
  let start := restoreFromSnapshot (PStr "77") (PStr "openstack-v2")
                 (PInt (-1)) PNone (PInt (-1)) in
  answer b 0 start = Ok (plain_reply 0 (PStr "5")) /\
  int scalars (PStr "5") = Ok 5 /\
  getitem (plain_reply 3 PNone) "status" = Ok (PInt 3) /\
  getitem (plain_reply 3 PNone) "volumeInfoResult" =
    Raise (KeyError "volumeInfoResult") /\
  create_volume_from_snapshot scalars defaults b 5 a_volume a_snapshot [] =
  Raises (KeyError "volumeInfoResult")
    [volumeDetailByName (PStr "openstack-v2");
     detail (restoreDetail (PInt 5)); start].
Proof.
  intros b start.
  assert (Hint : int scalars (PStr "5") = Ok 5) by reflexivity.
  split; [reflexivity | ]. split; [exact Hint | ].
  split; [reflexivity | ]. split; [reflexivity | ].
  destruct (restore_follows_its_monitor scalars defaults b 5 a_volume
              a_snapshot (PStr "v2") (PStr "77") "openstack-v2"
              (plain_reply 0 (PStr "5")) (PInt 0) (PStr "5") 5 []
              eq_refl eq_refl eq_refl eq_refl eq_refl eq_refl eq_refl Hint)
    as (_ & _ & Hret).
  exact (proj1 (Hret PNone [restoreDetail (PInt 5)] (plain_reply 3 PNone)
                  (PInt 3) eq_refl eq_refl eq_refl)
           (KeyError "volumeInfoResult") eq_refl).
Defined.

Lemma clone_follows_its_monitor_witness :
  let b := scripted_backend
             [plain_reply 0 (PInt 5); clone_reply 0 1;
              volume_reply 4 (PStr "99")] ticking in
  let start := volumeClone (PStr "42") (PStr "openstack-v2") in
  answer b 0 start = Ok (plain_reply 0 (PInt 5)) /\
  int scalars (PInt 5) = Ok 5 /\
  create_cloned_volume scalars defaults b 5 a_volume a_volume [] =
  Raises (VolumeBackendAPIException (PTuple
            [PStr "Error[%(stat)s - %(res)s] while getting volume id.";
             PDict {[ "stat" := PStr "4"; "res" := PInt 5 ]}]))
    [volumeDetailByName (PStr "openstack-v2");
     detail (cloneDetail (PInt 5) (PStr "openstack-v2")); start].
Proof.
  intros b start.
  assert (Hint : int scalars (PInt 5) = Ok 5) by reflexivity.
  split; [reflexivity | ]. split; [exact Hint | ].
  destruct (clone_follows_its_monitor scalars defaults b 5 a_volume a_volume
              (PStr "v2") (PStr "v2") "openstack-v2" (PInt 3) (PInt 3072)
              (PStr "42") (plain_reply 0 (PInt 5)) (PInt 0) (PInt 5) 5 []
              eq_refl eq_refl eq_refl eq_refl eq_refl eq_refl eq_refl eq_refl
              eq_refl eq_refl Hint)
    as (_ & _ & Hret).
  exact (proj2 (Hret PNone [cloneDetail (PInt 5) (PStr "openstack-v2")]
                  (volume_reply 4 (PStr "99")) (PInt 4)
                  eq_refl eq_refl eq_refl)
           (PDict {[ "volumeId" := PStr "99" ]}) (PStr "99") eq_refl eq_refl).
Defined.

Lemma restore_from_first_call_to_last_witness :
  let b := scripted_backend
             [plain_reply 0 (PStr "5"); restore_reply 0 2; restore_reply 0 2;
              restore_reply 0 1; volume_reply 0 (PStr "99")] ticking in
  let start := restoreFromSnapshot (PStr "77") (PStr "openstack-v2")
                 (PInt (-1)) PNone (PInt (-1)) in
  let query := detail (restoreDetail (PInt 5)) in
  answer b 0 start = Ok (plain_reply 0 (PStr "5")) /\
  (forall k, (k < 2)%nat ->
     exists reply_k,
       answer b (1 + k) query = Ok reply_k /\
       reads scalars "restore_detail" reply_k 2 = true /\
       clock b (1 + S k) - clock b 1 <= 3600) /\
  answer b 3 query = Ok (restore_reply 0 1) /\
  reads scalars "restore_detail" (restore_reply 0 1) 1 = true /\
  create_volume_from_snapshot scalars defaults b 3 a_volume a_snapshot [] =
  Returns (PDict {[ "provider_location" := PStr "99" ]})
    [volumeDetailByName (PStr "openstack-v2"); query; query; query; start].
Proof.
  intros b start query.
  assert (Hong : forall k, (k < 2)%nat ->
            exists reply_k,
              answer b (1 + k) query = Ok reply_k /\
              reads scalars "restore_detail" reply_k 2 = true /\
              clock b (1 + S k) - clock b 1 <= restore_check_timeout defaults).
  { intros k Hk. exists (restore_reply 0 2).
    destruct k as [ | [ | k]]; try lia;
      (split; [reflexivity | split; [vm_compute; reflexivity
                                    | vm_compute; discriminate]]). }
  assert (Hr : reads scalars "restore_detail" (restore_reply 0 1) 1 = true)
    by (vm_compute; reflexivity).
  split; [reflexivity | ]. split; [exact Hong | ].
  split; [reflexivity | ]. split; [exact Hr | ].
  exact (restore_from_first_call_to_last scalars defaults b 3 2 a_volume
           a_snapshot (PStr "v2") (PStr "77") "openstack-v2"
           (plain_reply 0 (PStr "5")) (PInt 0) (PStr "5") 5
           (restore_reply 0 1) (volume_reply 0 (PStr "99")) (PInt 0)
           (PDict {[ "volumeId" := PStr "99" ]}) (PStr "99") []
           eq_refl eq_refl eq_refl eq_refl eq_refl eq_refl eq_refl eq_refl
           Hong eq_refl Hr eq_refl eq_refl eq_refl eq_refl eq_refl
           (le_n 3)).
Defined.

Lemma create_volume_one_call_witness :
  let b := scripted_backend [plain_reply 0 (PStr "42")] ticking in
  let request := volumeCreate (PStr "openstack-v2") (PInt 3072) in
  answer b 0 request = Ok (plain_reply 0 (PStr "42")) /\
  create_volume scalars defaults b a_volume [] =
  Returns (PDict {[ "provider_location" := PStr "42" ]}) [request].
Proof.
  intros b request. split; [reflexivity | ].
  exact (proj1 (create_volume_one_call scalars defaults b a_volume [])
           "v2" 3 (plain_reply 0 (PStr "42")) (PInt 0) (PStr "42")
           eq_refl eq_refl eq_refl eq_refl eq_refl).
Defined.

Lemma deletions_and_extension_witness :
  let b := scripted_backend [plain_reply 6 (PStr "no space")] ticking in
  let request := volumeExtend (PStr "42") (PInt 5120) in
  answer b 0 request = Ok (plain_reply 6 (PStr "no space")) /\
  extend_volume scalars b a_volume (PInt 5) [] =
  Raises (VolumeBackendAPIException (PTuple
            [PStr "Error while extending volume [status] %(stat)s - [result] %(res)s.";
             PDict {[ "stat" := PStr "6"; "res" := PStr "no space" ]}]))
    [request] /\
  extend_volume scalars b a_volume PNone [] = Raises TypeError [].
Proof.
  intros b request.
  destruct (deletions_and_extension scalars b [])
    as (_ & _ & Hext & Hnone).
  split; [reflexivity | ]. split.
  - exact (Hext a_volume (PStr "42") 5 (plain_reply 6 (PStr "no space"))
             (PInt 6) (PStr "no space") eq_refl eq_refl eq_refl eq_refl).
  - exact (Hnone a_volume (PStr "42") eq_refl).
Defined.

(** * The monitor at a later poll *)

Section LaterPoll.

Variable rt : runtime.
Variable w : world.
Variable self : DISCOCheck.
Variable timeout : Z.

(** A timer still polling after [k] runs has made [k] queries. *)
Lemma timer_polling_length k calls :
  timer rt w self timeout k [] = Polling calls -> length calls = k.
Proof.
  intros H. assert (L := timer_log rt w self timeout k []). simpl in L.
  specialize (L ltac:(intros rq Hin; now apply elem_of_nil in Hin)).
  rewrite H in L. now destruct L as (Hlen & _).
Qed.

(** It goes on from the log it has reached. *)
Lemma timer_resumes k j calls :
  timer rt w self timeout k [] = Polling calls ->
  timer rt w self timeout (k + j) [] =
  wait j (_retry_get_detail rt w (start_time self) timeout (function self)
            (param self)) calls.
Proof. intros H. unfold timer in *. now rewrite wait_split, H. Qed.

(** The run after [k] polls decides the timer when it raises. *)
Lemma timer_ends_at k calls calls' r e n :
  timer rt w self timeout k [] = Polling calls ->
  _retry_get_detail rt w (start_time self) timeout (function self)
    (param self) calls = (Raise e, calls') ->
  r = match e with
      | LoopingCallDone retvalue => Ok retvalue
      | _ => Raise e
      end ->
  (k < n)%nat ->
  timer rt w self timeout n [] = Done r calls'.
Proof.
  intros Hk Hrun -> Hn. apply timer_stable with (n := (k + 1)%nat); [ | lia].
  rewrite (timer_resumes k 1 calls Hk). simpl. rewrite Hrun.
  now destruct e.
Qed.

(** While the timer is still polling it was polling at every earlier
    count. *)
Lemma timer_polling_prefix k j calls :
  timer rt w self timeout k [] = Polling calls -> (j <= k)%nat ->
  exists c, timer rt w self timeout j [] = Polling c.
Proof.
  intros Hk Hj.
  destruct (timer rt w self timeout j []) as [c | r c] eqn:E; [eauto | ].
  apply timer_stable with (m := k) in E; [congruence | exact Hj].
Qed.

(** Every reply read before that was accepted by the transport. *)
Lemma polling_replies_accepted k calls j r :
  timer rt w self timeout k [] = Polling calls -> (j < k)%nat ->
  answered w (function self) (param self) j r ->
  accepted r = true.
Proof.
  intros Hk Hj Ha.
  destruct (timer_polling_prefix k j calls Hk) as [c Hc]; [lia | ].
  destruct (timer_polling_prefix k (j + 1) calls Hk) as [c' Hc']; [lia | ].
  rewrite (timer_resumes j 1 c Hc) in Hc'.
  destruct (Ha c (timer_polling_length j c Hc)) as [rq Hcall].
  assert (Hrun := retry_answered rt w (start_time self) timeout _ _ _ _ _
                    Hcall).
  destruct (_retry_get_detail rt w (start_time self) timeout
              (function self) (param self) c) as [x c''] eqn:Hx.
  simpl in Hc'. rewrite Hx in Hc'.
  unfold accepted.
  destruct (getitem r "status") as [status | e].
  - destruct (truthy status); [ | reflexivity].
    injection Hrun as -> _. discriminate Hc'.
  - injection Hrun as -> _. destruct e; discriminate Hc'.
Qed.

(** C5.  At whatever poll it comes: when the monitor, still polling after
    [k] queries, has its next status query answered with a transport
    status that is a non-zero integer, it raises the details error
    carrying that status at once.  The call log ends with that query, the
    only one so answered since every reply before it was accepted, and it
    stays as it is however long the monitor is followed: nothing is
    retried.  Nothing is asked of the reply beyond its [status] field, so
    whatever item status it holds plays no part. *)
Theorem transport_error_aborts k calls reply rq z :
  timer rt w self timeout k [] = Polling calls ->
  _call_api w (function self) (param self) calls = (Ok reply, rq :: calls) ->
  getitem reply "status" = Ok (PInt z) -> z <> 0 ->
  length (rq :: calls) = S k /\
  (forall j r, (j < k)%nat ->
     answered w (function self) (param self) j r -> accepted r = true) /\
  forall n, (k < n)%nat ->
    _monitor_request rt w self timeout n [] =
    Done (Raise (OperationQueryFailed rt (function self) (PInt z)))
      (rq :: calls).
Proof.
  intros Hk Hcall Hs Hz. split; [ | split].
  - simpl. now rewrite (timer_polling_length k calls Hk).
  - intros j r Hj Ha. exact (polling_replies_accepted k calls j r Hk Hj Ha).
  - intros n Hn. apply monitor_of_timer_raise.
    apply timer_ends_at
      with (k := k) (calls := calls)
           (e := OperationQueryFailed rt (function self) (PInt z));
      try assumption; try reflexivity.
    apply retry_transport_error with (reply := reply); try assumption.
    now apply truthy_int.
Qed.

(** C3 (as amended).  Let the monitor be still polling after [k] queries
    and its next query be answered by [reply].  If [reply] reads Success,
    the run raises [LoopingCallDone] with it under every clock, so also
    with the deadline long passed: the timer ends with that reply handed to
    [wait()] and [_monitor_request] returns [None], not the reply, and does
    not raise the timeout error.  If [reply] reads Failure the monitor
    raises the details error, again whatever the clock.  And if the monitor
    ends at that poll with the timeout error, the reply was accepted, read
    neither Success nor Failure, and the deadline had passed. *)
Theorem status_is_checked_before_the_deadline k calls reply rq :
  timer rt w self timeout k [] = Polling calls ->
  _call_api w (function self) (param self) calls = (Ok reply, rq :: calls) ->
  (reads rt (function self) reply 1 = true ->
   (forall clock,
      _retry_get_detail rt {| client := client w; time_time := clock |}
        (start_time self) timeout (function self) (param self) calls =
      (Raise (LoopingCallDone reply), rq :: calls)) /\
   forall n, (k < n)%nat ->
     timer rt w self timeout n [] = Done (Ok reply) (rq :: calls) /\
     _monitor_request rt w self timeout n [] = Done (Ok PNone) (rq :: calls)) /\
  (reads rt (function self) reply 3 = true ->
   exists status,
     getitem reply "status" = Ok status /\
     forall n, (k < n)%nat ->
       _monitor_request rt w self timeout n [] =
       Done (Raise (OperationFailed rt (function self) status)) (rq :: calls)) /\
  (forall calls',
     _monitor_request rt w self timeout (S k) [] =
       Done (Raise (OperationTimedOut (function self))) calls' ->
     accepted reply = true /\
     reads rt (function self) reply 1 = false /\
     reads rt (function self) reply 3 = false /\
     time_time w (S (length calls)) - start_time self > timeout).
Proof.
  intros Hk Hcall.
  destruct (run_checks_status_first rt w (start_time self) timeout
              (function self) (param self) calls reply rq Hcall)
    as (Hsuccess & Hfailure & Hlate).
  split; [ | split].
  - intros Hr. split.
    + intros clock. exact (proj1 (Hsuccess Hr clock)).
    + intros n Hn.
      assert (Ht : timer rt w self timeout n [] = Done (Ok reply) (rq :: calls)).
      { apply timer_ends_at
          with (k := k) (calls := calls) (e := LoopingCallDone reply);
          try assumption; try reflexivity.
        now apply retry_success. }
      split; [exact Ht | ].
      now apply monitor_of_timer_value with (v := reply).
  - intros Hr.
    destruct (retry_failure rt w (start_time self) timeout _ _ _ _ _ Hcall Hr)
      as (status & Hs & _ & Hrun).
    exists status. split; [exact Hs | ]. intros n Hn.
    apply monitor_of_timer_raise.
    apply timer_ends_at
      with (k := k) (calls := calls)
           (e := OperationFailed rt (function self) status);
      try assumption; reflexivity.
  - intros calls' Hm. apply Hlate.
    assert (Ht : timer rt w self timeout (S k) [] =
                 Done (Raise (OperationTimedOut (function self))) calls').
    { unfold _monitor_request in Hm.
      destruct (timer rt w self timeout (S k) []) as [c | [v | e] c];
        congruence. }
    replace (S k) with (k + 1)%nat in Ht by lia.
    rewrite (timer_resumes k 1 calls Hk) in Ht.
    assert (Hlog := retry_answered rt w (start_time self) timeout _ _ _ _ _
                      Hcall).
    destruct (_retry_get_detail rt w (start_time self) timeout
                (function self) (param self) calls) as [r c] eqn:Hrun.
    assert (Hc : c = rq :: calls) by congruence.
    simpl in Ht. rewrite Hrun in Ht.
    destruct r as [[] | e]; [discriminate Ht | ].
    destruct e; try discriminate Ht; congruence.
Qed.

End LaterPoll.

(** ** The later polls, run *)

(** The transport error at the third poll of a snapshot check: the first
    two queries are answered Ongoing, the third with transport status 5
    around an item status that reads Success. *)
Lemma transport_error_aborts_witness :
  let w := scripted [snapshot_reply 0 2; snapshot_reply 0 2;
                     snapshot_reply 5 1] ticking in
  let calls := [snapshotDetail (PInt 7); snapshotDetail (PInt 7)] in
  timer scalars w snapshot_check 3600 2 [] = Polling calls /\
  _call_api w "snapshot_detail" (param snapshot_check) calls =
    (Ok (snapshot_reply 5 1), snapshotDetail (PInt 7) :: calls) /\
  getitem (snapshot_reply 5 1) "status" = Ok (PInt 5) /\ 5 <> 0 /\
  _get_item_status scalars "snapshot_detail" (snapshot_reply 5 1) =
    Ok (PInt 1) /\
  length (snapshotDetail (PInt 7) :: calls) = 3%nat /\
  (forall j r, (j < 2)%nat ->
     answered w "snapshot_detail" (param snapshot_check) j r ->
     accepted r = true) /\
  forall n, (2 < n)%nat ->
    _monitor_request scalars w snapshot_check 3600 n [] =
    Done (Raise (OperationQueryFailed scalars "snapshot_detail" (PInt 5)))
      (snapshotDetail (PInt 7) :: calls).
Proof.
  intros w calls.
  assert (Hk : timer scalars w snapshot_check 3600 2 [] = Polling calls)
    by (vm_compute; reflexivity).
  assert (Hcall : _call_api w (function snapshot_check) (param snapshot_check)
                    calls =
                  (Ok (snapshot_reply 5 1), snapshotDetail (PInt 7) :: calls))
    by (vm_compute; reflexivity).
  assert (Hs : getitem (snapshot_reply 5 1) "status" = Ok (PInt 5))
    by (vm_compute; reflexivity).
  assert (Hz : 5 <> 0) by lia.
  split; [exact Hk | ]. split; [exact Hcall | ]. split; [exact Hs | ].
  split; [exact Hz | ]. split; [vm_compute; reflexivity | ].
  exact (transport_error_aborts scalars w snapshot_check 3600 2 calls
           (snapshot_reply 5 1) (snapshotDetail (PInt 7)) 5 Hk Hcall Hs Hz).
Defined.

(** A snapshot check with a deadline of 3600 seconds whose every query
    takes 3000: the first is answered Ongoing 3000 seconds in, the second
    Success 6000 seconds in. *)
Lemma status_is_checked_before_the_deadline_witness :
  let w := scripted [snapshot_reply 0 2; snapshot_reply 0 1]
             (fun n => 1000 + 3000 * Z.of_nat n) in
  let calls := [snapshotDetail (PInt 7)] in
  let rq := snapshotDetail (PInt 7) in
  let reply := snapshot_reply 0 1 in
  timer scalars w snapshot_check 3600 1 [] = Polling calls /\
  _call_api w "snapshot_detail" (param snapshot_check) calls =
    (Ok reply, rq :: calls) /\
  time_time w 2 - start_time snapshot_check > 3600 /\
  (reads scalars "snapshot_detail" reply 1 = true ->
   (forall clock,
      _retry_get_detail scalars {| client := client w; time_time := clock |}
        1000 3600 "snapshot_detail" (param snapshot_check) calls =
      (Raise (LoopingCallDone reply), rq :: calls)) /\
   forall n, (1 < n)%nat ->
     timer scalars w snapshot_check 3600 n [] = Done (Ok reply) (rq :: calls) /\
     _monitor_request scalars w snapshot_check 3600 n [] =
       Done (Ok PNone) (rq :: calls)) /\
  (reads scalars "snapshot_detail" reply 3 = true ->
   exists status,
     getitem reply "status" = Ok status /\
     forall n, (1 < n)%nat ->
       _monitor_request scalars w snapshot_check 3600 n [] =
       Done (Raise (OperationFailed scalars "snapshot_detail" status))
         (rq :: calls)) /\
  (forall calls',
     _monitor_request scalars w snapshot_check 3600 2 [] =
       Done (Raise (OperationTimedOut "snapshot_detail")) calls' ->
     accepted reply = true /\
     reads scalars "snapshot_detail" reply 1 = false /\
     reads scalars "snapshot_detail" reply 3 = false /\
     time_time w 2 - 1000 > 3600).
Proof.
  intros w calls rq reply.
  assert (Hk : timer scalars w snapshot_check 3600 1 [] = Polling calls)
    by (vm_compute; reflexivity).
  assert (Hcall : _call_api w (function snapshot_check) (param snapshot_check)
                    calls = (Ok reply, rq :: calls))
    by (vm_compute; reflexivity).
  split; [exact Hk | ]. split; [exact Hcall | ].
  split; [vm_compute; reflexivity | ].
  exact (status_is_checked_before_the_deadline scalars w snapshot_check 3600 1
           calls reply rq Hk Hcall).
Defined.

(** C3 as stated does not hold of the monitor: in that snapshot check the
    second query is answered Success when the deadline of 3600 seconds has
    passed, and [_monitor_request] ends without the timeout error, but what
    it returns is [None]; the Success reply is never its result. *)
Lemma late_success_is_not_returned :
  let w := scripted [snapshot_reply 0 2; snapshot_reply 0 1]
             (fun n => 1000 + 3000 * Z.of_nat n) in
  answered w "snapshot_detail" (param snapshot_check) 0 (snapshot_reply 0 2) /\
  reads scalars "snapshot_detail" (snapshot_reply 0 2) 2 = true /\
  time_time w 1 - start_time snapshot_check <= 3600 /\
  answered w "snapshot_detail" (param snapshot_check) 1 (snapshot_reply 0 1) /\
  reads scalars "snapshot_detail" (snapshot_reply 0 1) 1 = true /\
  time_time w 2 - start_time snapshot_check > 3600 /\
  _monitor_request scalars w snapshot_check 3600 2 [] =
    Done (Ok PNone) [snapshotDetail (PInt 7); snapshotDetail (PInt 7)] /\
  forall n calls,
    _monitor_request scalars w snapshot_check 3600 n [] <>
    Done (Ok (snapshot_reply 0 1)) calls.
Proof.
  intros w.
  assert (A : forall k, answered w "snapshot_detail" (param snapshot_check) k
                (default PNone
                   ([snapshot_reply 0 2; snapshot_reply 0 1] !! k))).
  { intros k. apply scripted_answered with (rq := snapshotDetail (PInt 7)).
    intros; reflexivity. }
  assert (T : timer scalars w snapshot_check 3600 2 [] =
              Done (Ok (snapshot_reply 0 1))
                [snapshotDetail (PInt 7); snapshotDetail (PInt 7)])
    by (vm_compute; reflexivity).
  split; [exact (A 0%nat) | ].
  split; [vm_compute; reflexivity | ].
  split; [vm_compute; discriminate | ].
  split; [exact (A 1%nat) | ].
  split; [vm_compute; reflexivity | ].
  split; [vm_compute; reflexivity | ].
  split; [now apply monitor_of_timer_value with (v := snapshot_reply 0 1) | ].
  intros n calls H. unfold _monitor_request in H.
  destruct (timer scalars w snapshot_check 3600 n []) as [c | [v | e] c];
    discriminate H.
Qed.

(** C4 as stated does not hold: with the replies Ongoing, Failure scripted
    for a clone check and the deadline of 3600 seconds already passed when
    the first reply is read, the monitor raises the timeout error after one
    query.  The Failure reply is never fetched and the details error is
    never raised. *)
Lemma deadline_passed_before_the_failure :
  let w := scripted [clone_reply 0 2; clone_reply 0 3] (fun _ => 1000000) in
  answered w "clone_detail" (param clone_check) 0 (clone_reply 0 2) /\
  reads scalars "clone_detail" (clone_reply 0 2) 2 = true /\
  answered w "clone_detail" (param clone_check) 1 (clone_reply 0 3) /\
  reads scalars "clone_detail" (clone_reply 0 3) 3 = true /\
  (forall n, (1 <= n)%nat ->
     _monitor_request scalars w clone_check 3600 n [] =
     Done (Raise (OperationTimedOut "clone_detail"))
       [cloneDetail (PInt 9) (PStr "openstack-v1")]) /\
  forall n status calls,
    _monitor_request scalars w clone_check 3600 n [] <>
    Done (Raise (OperationFailed scalars "clone_detail" status)) calls.
Proof.
  intros w.
  assert (A : forall k, answered w "clone_detail" (param clone_check) k
                (default PNone ([clone_reply 0 2; clone_reply 0 3] !! k))).
  { intros k. apply scripted_answered
      with (rq := cloneDetail (PInt 9) (PStr "openstack-v1")).
    intros; reflexivity. }
  assert (E : forall n, (1 <= n)%nat ->
            _monitor_request scalars w clone_check 3600 n [] =
            Done (Raise (OperationTimedOut "clone_detail"))
              [cloneDetail (PInt 9) (PStr "openstack-v1")]).
  { intros n Hn. apply monitor_of_timer_raise.
    apply timer_stable with (n := 1%nat); [ | exact Hn].
    vm_compute; reflexivity. }
  split; [exact (A 0%nat) | ].
  split; [vm_compute; reflexivity | ].
  split; [exact (A 1%nat) | ].
  split; [vm_compute; reflexivity | ].
  split; [exact E | ].
  intros n status calls H. destruct n as [ | n].
  - vm_compute in H. discriminate H.
  - rewrite E in H by lia. unfold OperationTimedOut, OperationFailed in H.
    unfold timeout_msg, details_msg in H. simpl in H. discriminate H.
Qed.
